(** * Wavelet transform engine (enlib [wavelets.py]): model and properties

    The development embeds the wavelet basis generators ([Butterworth],
    [ButterTrim], [AdriSD]), the flat and curved geometry planners and the
    [WaveletTransform] engine of [wavelets.py].

    Conventions of the embedding:
    - Python numbers are real numbers ([R]); every float operation is read
      as the exact real operation it approximates.  Integer conversions
      ([int], [np.ceil], [np.round], [astype(int)]) are written out on [Z].
    - [None] is [option]; an attribute that has not been assigned yet is
      [None] and reading it raises [AttributeError].
    - A call that can raise returns a [Py.result].
    - numpy arrays of multipoles are lists of reals, element-wise operations
      are [fmap]/[zip_with]. *)

From Stdlib Require Import Reals ZArith List String Lia Lra.
From stdpp Require Import base option list gmap strings.

Local Open Scope Z_scope.

(** ** Python exceptions and results *)

Module Py.

Inductive exn : Type :=
| NameError (name : string)
| AttributeError (attr : string)
| TypeError
| IndexError
| ValueError.

Inductive result (A : Type) : Type :=
| Ok (a : A)
| Raise (e : exn).
Arguments Ok {A} a.
Arguments Raise {A} e.

Definition bind {A B} (m : result A) (k : A -> result B) : result B :=
  match m with
  | Ok a => k a
  | Raise e => Raise e
  end.

(** Reading a numeric attribute or argument that holds [None] inside an
    arithmetic expression ([np.log(None)], [None * x]) is a [TypeError]. *)
Definition num (v : option R) : result R :=
  match v with
  | Some x => Ok x
  | None => Raise TypeError
  end.

(** Reading an attribute that was never assigned. *)
Definition attr {A} (name : string) (v : option A) : result A :=
  match v with
  | Some x => Ok x
  | None => Raise (AttributeError name)
  end.

End Py.

Import Py.

#[global] Instance result_bind : MBind result := fun A B k m => Py.bind m k.
#[global] Instance result_ret : MRet result := fun A a => Ok a.
#[global] Instance result_fmap : FMap result :=
  fun A B f m => Py.bind m (fun a => Ok (f a)).

(** ** numpy helpers *)

Module Np.

(** [int(x)] on a float: truncation towards zero. *)
Definition int_ (x : R) : Z :=
  if Rle_dec 0 x then Zfloor x else Zceil x.

(** [np.ceil(x)] followed by [int] or [astype(int)]. *)
Definition ceil (x : R) : Z := Zceil x.

(** [np.round(x).astype(int)]: round half to even. *)
Definition round (x : R) : Z :=
  let f := Zfloor x in
  let d := (x - IZR f)%R in
  if Rlt_dec d (1 / 2) then f
  else if Rlt_dec (1 / 2) d then f + 1
  else if Z.even f then f else f + 1.

(** [np.arange(n)]: empty when [n <= 0]. *)
Definition arange (n : Z) : list Z := Z.of_nat <$> seq 0 (Z.to_nat n).

(** [x ** y] for a positive base. *)
Definition power (x y : R) : R := Rpower x y.

(** [np.clip(x, lo, hi)] is [minimum(maximum(x, lo), hi)]. *)
Definition clip (x lo hi : R) : R := Rmin (Rmax x lo) hi.

(** [np.full(l.shape, v)] *)
Definition full (l : list R) (v : R) : list R := (fun _ => v) <$> l.

(** [a[-1] = v] on a one-dimensional array: [IndexError] on an empty one. *)
Definition setitem_last {A} (a : list A) (v : A) : result (list A) :=
  match a with
  | [] => Raise IndexError
  | _ => Ok (<[Nat.pred (length a) := v]> a)
  end.

(** [a[-2:]] *)
Definition last2 {A} (a : list A) : list A := drop (length a - 2)%nat a.

(** [a[:-1]] *)
Definition init_ {A} (a : list A) : list A := take (length a - 1)%nat a.

End Np.

(** ** Helper functions of the module *)

(** [trim_kernel(a, tol)] *)
Definition trim_kernel (a : list R) (tol : R) : list R :=
  (fun x => Np.clip (x * (1 + 2 * tol) - tol) 0 1)%R <$> a.



(** ** Wavelet basis generators *)

Module Butterworth.

Record t : Type := mk {
  step : R; shape : R; tol : R;
  lmin : option R; lmax : option R;
  n : option Z; lmaxs : option (list Z)
}.

(** [_finalize]: derives [n] and [lmaxs] from the attributes of [self]. *)
Definition _finalize (self : t) : result t :=
  hi ← num (lmax self);
  lo ← num (lmin self);
  let n_ := Np.int_ ((ln hi - ln lo) / ln (step self)) in
  let raw :=
    (fun i => Np.round (lo * Np.power (1 / tol self - 1) (ln (step self) / shape self)
                           * Np.power (step self) (IZR i + 1 / 2)))%R
      <$> Np.arange n_ in
  cut ← Np.setitem_last raw (Np.int_ hi);
  Ok (mk (step self) (shape self) (tol self) (lmin self) (lmax self)
         (Some n_) (Some cut)).

(** [__init__].  The default [lmin = 1] is assigned to the local name
    only: the attribute keeps the value it was given. *)
Definition __init__ (step shape tol : R) (lmin lmax : option R) : result t :=
  let self := mk step shape tol lmin lmax None None in
  match lmax with
  | Some _ =>
      let lmin := match lmin with None => Some 1%R | Some _ => lmin end in
      _finalize self
  | None => Ok self
  end.

Definition with_bounds (self : t) (lmin lmax : option R) : result t :=
  __init__ (step self) (shape self) (tol self) lmin lmax.

Definition kernel (self : t) (i : Z) (l : list R) : result (list R) :=
  lo ← num (lmin self);
  Ok ((fun x => 1 / (1 + Np.power (x / (lo * Np.power (step self) (IZR i + 1 / 2)))
                                  (shape self / ln (step self))))%R <$> l).

Definition __call__ (self : t) (i : Z) (l : list R) : result (list R) :=
  n_ ← attr "n" (n self);
  profile ← (if i =? n_ - 1 then Ok (Np.full l 1%R) else kernel self i l);
  if 0 <? i
  then k ← kernel self (i - 1) l; Ok (zip_with Rminus profile k)
  else Ok profile.

End Butterworth.

Module ButterTrim.

Record t : Type := mk {
  step : R; shape : R; trim : R;
  lmin : option R; lmax : option R;
  n : option Z; lmaxs : option (list Z)
}.

Definition _finalize (self : t) : result t :=
  hi ← num (lmax self);
  lo ← num (lmin self);
  let n_ := Np.int_ ((ln hi - ln lo) / ln (step self)) in
  let raw :=
    (fun i => Np.ceil (lo * Np.power ((1 + 2 * trim self) / trim self - 1)
                                     (ln (step self) / shape self)
                          * Np.power (step self) (IZR i + 1 / 2)))%R
      <$> Np.arange n_ in
  cut ← Np.setitem_last raw (Np.int_ hi);
  Ok (mk (step self) (shape self) (trim self) (lmin self) (lmax self)
         (Some n_) (Some cut)).

Definition __init__ (step shape trim : R) (lmin lmax : option R) : result t :=
  let self := mk step shape trim lmin lmax None None in
  match lmax with
  | Some _ =>
      let lmin := match lmin with None => Some 1%R | Some _ => lmin end in
      _finalize self
  | None => Ok self
  end.

Definition with_bounds (self : t) (lmin lmax : option R) : result t :=
  __init__ (step self) (shape self) (trim self) lmin lmax.

Definition kernel (self : t) (i : Z) (l : list R) : result (list R) :=
  lo ← num (lmin self);
  Ok (trim_kernel
        ((fun x => 1 / (1 + Np.power (x / (lo * Np.power (step self) (IZR i + 1 / 2)))
                                     (shape self / ln (step self))))%R <$> l)
        (trim self)).

Definition __call__ (self : t) (i : Z) (l : list R) : result (list R) :=
  n_ ← attr "n" (n self);
  profile ← (if i =? n_ - 1 then Ok (Np.full l 1%R) else kernel self i l);
  if 0 <? i
  then k ← kernel self (i - 1) l; Ok (zip_with Rminus profile k)
  else Ok profile.

End ButterTrim.

(** ** Collaborators outside the module

    [wavelets.py] consumes the grid utility ([enmap], [wcsutils], [utils]),
    the FFT and SHT engines ([enmap.fft], [curvedsky], [sharp]) and the
    scale-discrete kernel routine of [optweight].  They are an interface
    here: the functions of the module are written against it. *)

(** A sky or pixel box, [[[a00, a01], [a10, a11]]]. *)
Definition box (A : Type) : Type := ((A * A) * (A * A))%type.

Class Extern : Type := {
  (** coordinate mappings *)
  WCS : Type;
  (** maps ([enmap.ndmap]), harmonic coefficients, [alm_info], dtypes *)
  ndmap : Type;
  alm : Type;
  alm_info : Type;
  dtype : Type;
  (** [wlm_utils.get_sd_kernels(lamb, lmax, lmin=lmin)] *)
  get_sd_kernels : R -> option R -> option R -> result (list (list R) * list Z);
  (** [enmap.pixshapebounds(shape, wcs)] and [enmap.extent(shape, wcs)] *)
  pixshapebounds : list Z -> WCS -> R * R;
  extent : list Z -> WCS -> R * R;
  (** [wcsutils.scale(iwcs, factors, rowmajor=True, corner=True)] *)
  wcs_scale : WCS -> list R -> WCS;
  (** [enmap.corners], [enmap.fullsky_geometry(res=res)],
      [enmap.skybox2pixbox], [utils.rewind(a, period=p)], [utils.nint],
      [Geometry.submap(pixbox=pbox)] *)
  corners : list Z -> WCS -> box R;
  fullsky_geometry : R -> list Z * WCS;
  skybox2pixbox : list Z -> WCS -> box R -> box R;
  rewind : R -> R -> R;
  nint : R -> Z;
  submap : list Z * WCS -> box Z -> list Z * WCS;
  (** [enmap.resample_fft(l, shape, norm=None, corner=True)] on the
      multipole array of the descriptor *)
  resample_l : list R -> list Z -> list R;
  (** arrays *)
  map_shape : ndmap -> list Z;
  map_dtype : ndmap -> dtype;
  npix : ndmap -> Z;
  complex_of : dtype -> dtype;
  zeros : list Z -> WCS -> dtype -> ndmap;
  divide : ndmap -> R -> ndmap;
  (** [a *= filter] *)
  imul : ndmap -> list R -> ndmap;
  (** [enmap.fft(m, normalize=False)] and [enmap.ifft(f, normalize=False).real] *)
  fft : ndmap -> ndmap;
  ifft_real : ndmap -> ndmap;
  (** [enmap.resample_fft(f, shape, norm=None, corner=True)] and the
      accumulating form with [fomap=fomap, op=np.add], which returns the
      updated [fomap] *)
  resample_fft : ndmap -> list Z -> ndmap;
  resample_fft_add : ndmap -> list Z -> ndmap -> result ndmap;
  (** [omap[:] = tmp]: numpy checks that [tmp] broadcasts to [omap] before
      it copies anything *)
  assign_all : ndmap -> ndmap -> result ndmap;
  (** spherical harmonic transforms *)
  sharp_alm_info : R -> alm_info;
  alm_nelem : alm_info -> Z;
  alm_zeros : list Z -> Z -> dtype -> alm;
  map2alm : ndmap -> alm_info -> alm;
  transfer_alm : alm_info -> alm -> alm_info -> alm;
  transfer_alm_add : alm_info -> alm -> alm_info -> alm -> alm;
  lmul : alm_info -> alm -> list R -> alm;
  (** [curvedsky.alm2map(alm, map)] writes into [map] and returns it: the
      content of [map] after the call, and the outcome *)
  alm2map : alm -> ndmap -> ndmap * result ()
}.

(** [a[i]] with Python's negative indices. *)
Definition getitem {A} (a : list A) (i : Z) : result A :=
  let len := Z.of_nat (length a) in
  let j := if i <? 0 then len + i else i in
  if (j <? 0) || (len <=? j) then Raise IndexError
  else match a !! Z.to_nat j with
       | Some x => Ok x
       | None => Raise IndexError
       end.

(** [enumerate(a)] *)
Definition enumerate {A} (a : list A) : list (Z * A) :=
  zip (Np.arange (Z.of_nat (length a))) a.

(** [np.interp(x, np.arange(len(fp)), fp)] *)
Definition interp (fp : list R) (x : R) : result R :=
  match fp with
  | [] => Raise ValueError
  | f0 :: _ =>
      let top := (Z.of_nat (length fp) - 1)%Z in
      if Rle_dec x 0 then Ok f0
      else if Rle_dec (IZR top) x then Ok (List.last fp f0)
      else
        let k := Zfloor x in
        lo ← getitem fp k;
        hi ← getitem fp (k + 1);
        Ok (lo + (x - IZR k) * (hi - lo))%R
  end.

Module AdriSD.
Section AdriSD.
Context `{E : Extern}.

Record t : Type := mk {
  lamb : R;
  lmin : option R; lmax : option R;
  profiles : option (list (list R)); lmaxs : option (list Z)
}.

Definition _finalize (self : t) : result t :=
  kernels ← get_sd_kernels (lamb self) (lmax self) (lmin self);
  let prof : list (list R) := kernels.1 in
  let cut : list Z := kernels.2 in
  Ok (mk (lamb self) (lmin self) (lmax self)
         (Some ((fun p : list R => (fun x => x * x)%R <$> p) <$> prof)) (Some cut)).

Definition __init__ (lamb : R) (lmin lmax : option R) : result t :=
  let self := mk lamb lmin lmax None None in
  match lmax with
  | Some _ =>
      let lmin := match lmin with None => Some 1%R | Some _ => lmin end in
      _finalize self
  | None => Ok self
  end.

Definition with_bounds (self : t) (lmin lmax : option R) : result t :=
  __init__ (lamb self) lmin lmax.

Definition n (self : t) : result Z :=
  p ← attr "profiles" (profiles self); Ok (Z.of_nat (length p)).

Definition __call__ (self : t) (i : Z) (l : list R) : result (list R) :=
  p ← attr "profiles" (profiles self);
  fp ← getitem p i;
  mapM (interp fp) l.

End AdriSD.
End AdriSD.

(** ** The basis family

    The engine is written against the common interface of the three
    classes ([lmin], [lmax], [lmaxs], [with_bounds], [__call__]). *)

Section Basis.
Context `{E : Extern}.

Inductive basis : Type :=
| BW (b : Butterworth.t)
| BT (b : ButterTrim.t)
| SD (b : AdriSD.t).

Definition basis_lmin (b : basis) : option R :=
  match b with
  | BW b => Butterworth.lmin b
  | BT b => ButterTrim.lmin b
  | SD b => AdriSD.lmin b
  end.

Definition basis_lmax (b : basis) : option R :=
  match b with
  | BW b => Butterworth.lmax b
  | BT b => ButterTrim.lmax b
  | SD b => AdriSD.lmax b
  end.

Definition basis_lmaxs (b : basis) : result (list Z) :=
  match b with
  | BW b => attr "lmaxs" (Butterworth.lmaxs b)
  | BT b => attr "lmaxs" (ButterTrim.lmaxs b)
  | SD b => attr "lmaxs" (AdriSD.lmaxs b)
  end.

Definition basis_n (b : basis) : result Z :=
  match b with
  | BW b => attr "n" (Butterworth.n b)
  | BT b => attr "n" (ButterTrim.n b)
  | SD b => AdriSD.n b
  end.

Definition basis_with_bounds (b : basis) (lmin lmax : option R) : result basis :=
  match b with
  | BW b => BW <$> Butterworth.with_bounds b lmin lmax
  | BT b => BT <$> ButterTrim.with_bounds b lmin lmax
  | SD b => SD <$> AdriSD.with_bounds b lmin lmax
  end.

Definition basis_call (b : basis) (i : Z) (l : list R) : result (list R) :=
  match b with
  | BW b => Butterworth.__call__ b i l
  | BT b => ButterTrim.__call__ b i l
  | SD b => AdriSD.__call__ b i l
  end.

(** *** Objects and references

    A basis is a Python object: [with_bounds] is called on a reference and
    returns a reference to a newly allocated instance. *)

Definition alloc (h : gmap nat basis) (b : basis) : nat * gmap nat basis :=
  let p := fresh (dom h) in (p, <[p := b]> h).

Definition with_bounds_ref (h : gmap nat basis) (self : nat) (lmin lmax : option R)
  : gmap nat basis * result nat :=
  match h !! self with
  | None => (h, Raise (AttributeError "with_bounds"))
  | Some b =>
      match basis_with_bounds b lmin lmax with
      | Ok b' => let '(p, h') := alloc h b' in (h', Ok p)
      | Raise e => (h, Raise e)
      end
  end.

End Basis.

(** ** Geometry planners *)

Section Planner.
Context `{E : Extern}.

Definition geometry : Type := (list Z * WCS)%type.

Definition make_wavelet_geometry_flat
    (ishape : list Z) (iwcs : WCS) (ires ores : R) : geometry :=
  let dims := Np.last2 ishape in
  let oshape := (fun s => Np.ceil (IZR s * ires / ores) + 5) <$> dims in
  let oshape := zip_with Z.min oshape dims in
  let owcs :=
    wcs_scale iwcs (zip_with (fun o i => IZR o / IZR i)%R (Np.last2 oshape) dims) in
  (oshape, owcs).

Definition make_wavelet_geometry_curved
    (ishape : list Z) (iwcs : WCS) (ores : R) : result geometry :=
  let res := (PI / IZR (Np.ceil (PI / ores)))%R in
  let '((b00, b01), (b10, b11)) := corners ishape iwcs in
  let b00 := Np.clip b00 (- PI / 2) (PI / 2) in
  let b10 := Np.clip b10 (- PI / 2) (PI / 2) in
  let b11 := (b01 + Np.clip (b11 - b01) (- 2 * PI) (2 * PI))%R in
  let tgeo := fullsky_geometry res in
  let '((p00, p01), (p10, p11)) :=
    skybox2pixbox tgeo.1 tgeo.2 ((b00, b01), (b10, b11)) in
  (* [pbox[np.argmax(pbox[:,0]),0] += 1]: the first maximum *)
  let '(p00, p10) :=
    if Rle_dec p10 p00 then ((p00 + 1)%R, p10) else (p00, (p10 + 1)%R) in
  period ← getitem tgeo.1 1;
  let shift := (rewind p01 (IZR period) - p01)%R in
  let p01 := (p01 + shift)%R in
  let p11 := (p11 + shift)%R in
  Ok (submap tgeo ((nint p00, nint p01), (nint p10, nint p11))).

End Planner.

(** ** The harmonic-transform descriptor ([uharm.UHT]) *)

Module UHT.
Section UHT.
Context `{E : Extern}.

Record t : Type := mk {
  mode : string;
  shape : list Z;
  wcs : WCS;
  lmax : R;
  l : list R
}.

End UHT.
End UHT.

(** ** The multi-resolution container *)

Module multimap.
Section multimap.
Context `{E : Extern}.

(** Modelled from the spec: the [multimap] module of the repository is not
    part of the sources at hand.  A container holds one array per scale,
    indexed by scale, with a shared batch shape [pre] and [dtype]; it is
    allocated zero-filled from a list of (shape, coordinate-mapping) pairs
    and a dtype. *)
Record t : Type := mk {
  map : list ndmap;
  pre : list Z;
  dtype_ : dtype
}.

(** Modelled from the spec: [multimap.zeros(geos, dtype)]. *)
Definition zeros_ (geos : list geometry) (dt : dtype) : t :=
  mk ((fun g : geometry => zeros g.1 g.2 dt) <$> geos)
     (match geos with
      | [] => []
      | g :: _ => take (length g.1 - 2)%nat g.1
      end)
     dt.

(** Modelled from the spec: [owave.map[i] = value].  A value whose shape
    disagrees with the shape of scale [i] is a shape mismatch, which fails
    rather than truncating or padding. *)
Definition setitem (w : t) (i : Z) (v : ndmap) : result t :=
  old ← getitem (map w) i;
  if decide (map_shape old = map_shape v)
  then Ok (mk (<[Z.to_nat i := v]> (map w)) (pre w) (dtype_ w))
  else Raise ValueError.

End multimap.
End multimap.

(** ** The transform engine *)

Module WaveletTransform.
Section WaveletTransform.
Context `{E : Extern}.

Record t : Type := mk {
  uht : UHT.t;
  basis_ : basis;
  geometries : list geometry;
  filters : list (list R)
}.

(** What a property of the engine returns: a pixel shape or a coordinate
    mapping. *)
Inductive pyval : Type :=
| PyShape (s : list Z)
| PyWcs (w : WCS).

Definition __init__ (uht : UHT.t) (b : basis) : result t :=
  let ires :=
    let '(dy, dx) := pixshapebounds (UHT.shape uht) (UHT.wcs uht) in Rmax dy dx in
  b ← (match basis_lmax b, basis_lmin b with
       | Some _, Some _ => Ok b
       | olmax, olmin =>
           let lmax :=
             match olmax with
             | None => Rmin (IZR (Np.ceil (PI / ires))) (UHT.lmax uht)
             | Some v => v
             end in
           let lmin :=
             match olmin with
             | None =>
                 let '(ey, ex) := extent (UHT.shape uht) (UHT.wcs uht) in
                 Rmin (IZR (Np.ceil (PI / Rmax ey ex))) lmax
             | Some v => v
             end in
           basis_with_bounds b (Some lmin) (Some lmax)
       end);
  lmaxs ← basis_lmaxs b;
  if String.eqb (UHT.mode uht) "flat" then
    let oress := (fun m => Rmax (PI / IZR m) ires) <$> lmaxs in
    let geos :=
      (make_wavelet_geometry_flat (UHT.shape uht) (UHT.wcs uht) ires <$> Np.init_ oress)
        ++ [(UHT.shape uht, UHT.wcs uht)] in
    flt ← mapM (fun ig : Z * geometry =>
                  basis_call b ig.1 (resample_l (UHT.l uht) ig.2.1))
               (enumerate geos);
    Ok (mk uht b geos flt)
  else
    let oress := (fun m => Rmax (PI / IZR m / 2) ires) <$> lmaxs in
    geos ← mapM (make_wavelet_geometry_curved (UHT.shape uht) (UHT.wcs uht)) oress;
    flt ← mapM (fun ig : Z * geometry => basis_call b ig.1 (UHT.l uht))
               (enumerate geos);
    Ok (mk uht b geos flt).

(** The properties [shape], [wcs] and [geometry]. *)
Definition shape (self : t) : pyval := PyShape (UHT.shape (uht self)).
Definition wcs (self : t) : pyval := PyShape (UHT.shape (uht self)).
Definition geometry_ (self : t) : pyval * pyval := (shape self, wcs self).

(** *** Forward transform

    The loops run over [enumerate(self.geometries)] and write into the
    container scale by scale; they return the container as the loop left
    it together with the outcome. *)

(** The coefficient array of one scale on the flat path. *)
Definition flat_coefficient (self : t) (fmap : ndmap) (i : Z) (shp : list Z)
  : result ndmap :=
  let fsmall := resample_fft fmap shp in
  f ← getitem (filters self) i;
  Ok (ifft_real (imul fsmall f)).

Fixpoint map2wave_flat_loop (self : t) (fmap : ndmap)
    (todo : list (Z * geometry)) (owave : multimap.t)
  : multimap.t * result () :=
  match todo with
  | [] => (owave, Ok ())
  | (i, (shp, _)) :: rest =>
      match (c ← flat_coefficient self fmap i shp; multimap.setitem owave i c) with
      | Ok owave' => map2wave_flat_loop self fmap rest owave'
      | Raise e => (owave, Raise e)
      end
  end.

Fixpoint map2wave_curved_loop (self : t) (ainfo : alm_info) (a : alm)
    (todo : list (Z * geometry)) (owave : multimap.t)
  : multimap.t * result () :=
  match todo with
  | [] => (owave, Ok ())
  | (i, _) :: rest =>
      match (cut ← basis_lmaxs (basis_ self);
             lmax_i ← getitem cut i;
             let smallinfo := sharp_alm_info (IZR lmax_i) in
             let asmall := transfer_alm ainfo a smallinfo in
             f ← getitem (filters self) i;
             let asmall := lmul smallinfo asmall f in
             target ← getitem (multimap.map owave) i;
             Ok (alm2map asmall target)) with
      | Ok (written, r) =>
          let owave' :=
            multimap.mk (<[Z.to_nat i := written]> (multimap.map owave))
                        (multimap.pre owave) (multimap.dtype_ owave) in
          match r with
          | Ok _ => map2wave_curved_loop self ainfo a rest owave'
          | Raise e => (owave', Raise e)
          end
      | Raise e => (owave, Raise e)
      end
  end.

(** [map2wave(map, owave)].  The first component is the caller's container
    after the call ([None] when the caller supplied none), the second the
    returned coefficients or the exception. *)
Definition map2wave (self : t) (m : ndmap) (owave : option multimap.t)
  : option multimap.t * result multimap.t :=
  let geos :=
    (fun g : geometry =>
       (take (length (map_shape m) - 2)%nat (map_shape m) ++ Np.last2 g.1, g.2))
      <$> geometries self in
  let w := match owave with
           | None => multimap.zeros_ geos (map_dtype m)
           | Some w => w
           end in
  let '(w', r) :=
    if String.eqb (UHT.mode (uht self)) "flat" then
      let fmap := divide (fft m) (IZR (npix m)) in
      map2wave_flat_loop self fmap (enumerate (geometries self)) w
    else
      match Py.num (basis_lmax (basis_ self)) with
      | Ok lmax =>
          let ainfo := sharp_alm_info lmax in
          map2wave_curved_loop self ainfo (map2alm m ainfo)
                               (enumerate (geometries self)) w
      | Raise e => (w, Raise e)
      end in
  ((fun _ => w') <$> owave, (_ ← r; Ok w')).

(** *** Inverse transform *)

Fixpoint wave2map_flat_loop (self : t) (wave : multimap.t)
    (todo : list (Z * geometry)) (fomap : ndmap) : result ndmap :=
  match todo with
  | [] => Ok fomap
  | (i, _) :: rest =>
      wi ← getitem (multimap.map wave) i;
      let fsmall := fft wi in
      let fsmall := divide fsmall (IZR (npix fsmall)) in
      fomap ← resample_fft_add fsmall (UHT.shape (uht self)) fomap;
      wave2map_flat_loop self wave rest fomap
  end.

Fixpoint wave2map_curved_loop (self : t) (wave : multimap.t) (ainfo : alm_info)
    (todo : list (Z * geometry)) (oalm : alm) : result alm :=
  match todo with
  | [] => Ok oalm
  | (i, _) :: rest =>
      cut ← basis_lmaxs (basis_ self);
      lmax_i ← getitem cut i;
      let smallinfo := sharp_alm_info (IZR lmax_i) in
      wi ← getitem (multimap.map wave) i;
      let asmall := map2alm wi smallinfo in
      wave2map_curved_loop self wave ainfo rest
        (transfer_alm_add smallinfo asmall ainfo oalm)
  end.

(** [wave2map(wave, omap)].  The first component is the caller's map after
    the call, the second the returned map or the exception. *)
Definition wave2map (self : t) (wave : multimap.t) (omap : option ndmap)
  : option ndmap * result ndmap :=
  let full_shape := multimap.pre wave ++ Np.last2 (UHT.shape (uht self)) in
  if String.eqb (UHT.mode (uht self)) "flat" then
    let fomap := zeros full_shape (UHT.wcs (uht self))
                       (complex_of (multimap.dtype_ wave)) in
    match wave2map_flat_loop self wave (enumerate (geometries self)) fomap with
    | Raise e => (omap, Raise e)
    | Ok fomap =>
        let tmp := ifft_real fomap in
        match omap with
        | None => (None, Ok tmp)
        | Some o =>
            match assign_all o tmp with
            | Ok o' => (Some o', Ok o')
            | Raise e => (Some o, Raise e)
            end
        end
    end
  else
    match (lmax ← Py.num (basis_lmax (basis_ self));
           let ainfo := sharp_alm_info lmax in
           wave2map_curved_loop self wave ainfo (enumerate (geometries self))
             (alm_zeros (multimap.pre wave) (alm_nelem ainfo)
                        (complex_of (multimap.dtype_ wave)))) with
    | Raise e => (omap, Raise e)
    | Ok oalm =>
        let o := match omap with
                 | None => zeros full_shape (UHT.wcs (uht self)) (multimap.dtype_ wave)
                 | Some o => o
                 end in
        let '(o', r) := alm2map oalm o in
        ((fun _ => o') <$> omap, (_ ← r; Ok o'))
    end.

End WaveletTransform.
End WaveletTransform.

(** ** Loading the module

    Executing [wavelets.py] runs its top-level statements in order.  An
    [import] binds names; a [def] evaluates its decorators and the default
    values of its parameters when it is executed, then binds its name; a
    [class] statement runs its body in a namespace of its own and then
    binds the class name.  A name is looked up in the class body first,
    then in the module, then in the builtins.  Only name resolution is
    followed: a call ([Call f] is [f()]) of a bound name is taken to
    return. *)

Module Loader.

Inductive expr : Type :=
| Const
| Name (x : string)
| Call (f : expr).

Inductive member : Type :=
| Docstring
| Method (decorators : list expr) (name : string) (defaults : list expr).

Inductive stmt : Type :=
| Import (names : list string)
| FunctionDef (name : string) (defaults : list expr)
| ClassDef (name : string) (body : list member).

Definition builtins : gset string :=
  {["property"; "min"; "int"; "len"; "tuple"; "enumerate"]}.

Definition lookup_name (locals globals : gset string) (x : string) : result () :=
  if decide (x ∈ locals) then Ok ()
  else if decide (x ∈ globals) then Ok ()
  else if decide (x ∈ builtins) then Ok ()
  else Raise (NameError x).

Fixpoint eval (locals globals : gset string) (e : expr) : result () :=
  match e with
  | Const => Ok ()
  | Name x => lookup_name locals globals x
  | Call f => eval locals globals f
  end.

Fixpoint eval_all (locals globals : gset string) (es : list expr) : result () :=
  match es with
  | [] => Ok ()
  | e :: es => _ ← eval locals globals e; eval_all locals globals es
  end.

Fixpoint exec_body (globals locals : gset string) (body : list member)
  : result (gset string) :=
  match body with
  | [] => Ok locals
  | Docstring :: body => exec_body globals locals body
  | Method decorators name defaults :: body =>
      _ ← eval_all locals globals decorators;
      _ ← eval_all locals globals defaults;
      exec_body globals ({[name]} ∪ locals) body
  end.

Definition exec (globals : gset string) (s : stmt) : result (gset string) :=
  match s with
  | Import names => Ok (list_to_set names ∪ globals)
  | FunctionDef name defaults =>
      _ ← eval_all ∅ globals defaults; Ok ({[name]} ∪ globals)
  | ClassDef name body =>
      _ ← exec_body globals ∅ body; Ok ({[name]} ∪ globals)
  end.

Fixpoint load (globals : gset string) (m : list stmt) : result (gset string) :=
  match m with
  | [] => Ok globals
  | s :: m => globals ← exec globals s; load globals m
  end.

(** The top-level statements of [wavelets.py], in source order. *)
Definition wavelets_py : list stmt :=
  [ Import ["np"];
    Import ["enmap"; "utils"; "wcsutils"; "curvedsky"; "sharp"];
    Import ["multimap"];
    ClassDef "WaveletTransform"
      [ Docstring;
        Method [] "__init__" [Call (Name "ButterTrim")];
        Method [Name "property"] "shape" [];
        Method [Name "property"] "wcs" [];
        Method [Name "property"] "geometry" [];
        Method [] "map2wave" [Const];
        Method [] "wave2map" [Const] ];
    ClassDef "Butterworth"
      [ Docstring;
        Method [] "__init__" [Const; Const; Const; Const; Const];
        Method [] "with_bounds" [];
        Method [] "__call__" [];
        Method [] "kernel" [];
        Method [] "_finalize" [] ];
    ClassDef "ButterTrim"
      [ Docstring;
        Method [] "__init__" [Const; Const; Const; Const; Const];
        Method [] "with_bounds" [];
        Method [] "__call__" [];
        Method [] "kernel" [];
        Method [] "_finalize" [] ];
    ClassDef "AdriSD"
      [ Docstring;
        Method [] "__init__" [Const; Const; Const];
        Method [] "with_bounds" [];
        Method [Name "property"] "n" [];
        Method [] "__call__" [];
        Method [] "_finalize" [] ];
    FunctionDef "trim_kernel" [];
    FunctionDef "make_wavelet_geometry_flat" [];
    FunctionDef "make_wavelet_geometry_curved" [Const] ].

End Loader.

(** [WaveletTransform(uht)] from a client: the module is loaded, the class
    is looked up in it, and the constructor runs with the default basis
    [ButterTrim()] (step 2, shape 7, trim 1e-2, no bounds). *)
Definition WaveletTransform_default `{E : Extern} (uht : UHT.t)
  : result WaveletTransform.t :=
  globals ← Loader.load ∅ Loader.wavelets_py;
  _ ← Loader.lookup_name ∅ globals "WaveletTransform";
  b ← ButterTrim.__init__ 2 7 (1 / 100) None None;
  WaveletTransform.__init__ uht (BT b).

(** ** A small instance of the collaborators

    Used to run the module on concrete inputs.  A coordinate mapping is
    identified with its pixel size in radians; a map is a pixel shape with
    its flattened real samples.  The Fourier transform is the one of
    one-pixel maps, where it is the identity; the patch of a grid is the
    full sky. *)

Definition small_prod (s : list Z) : Z := foldr Z.mul 1 s.

#[export] Instance SmallGrid : Extern := {|
  WCS := R;
  ndmap := list Z * list R;
  alm := list R;
  alm_info := R;
  dtype := bool;
  get_sd_kernels := fun _ lmax _ =>
    hi ← Py.num lmax; Ok ([[1%R]], [Np.int_ hi]);
  pixshapebounds := fun _ w => (w, w);
  extent := fun s w =>
    match Np.last2 s with
    | [ny; nx] => (IZR ny * w, IZR nx * w)%R
    | _ => (w, w)
    end;
  wcs_scale := fun w f =>
    match f with
    | f0 :: _ => (w / f0)%R
    | [] => w
    end;
  corners := fun _ _ => ((- PI / 2, PI), (PI / 2, - PI))%R;
  fullsky_geometry := fun res =>
    ([Np.ceil (PI / res) + 1; Np.ceil (2 * PI / res)], res);
  skybox2pixbox := fun _ w b =>
    (((b.1.1 + PI / 2) / w, (PI - b.1.2) / w),
     ((b.2.1 + PI / 2) / w, (PI - b.2.2) / w))%R;
  rewind := fun a _ => a;
  nint := Np.round;
  submap := fun g b =>
    ([Z.abs (b.2.1 - b.1.1); Z.abs (b.2.2 - b.1.2)], g.2);
  resample_l := fun l _ => l;
  map_shape := fst;
  map_dtype := fun _ => false;
  npix := fun m => small_prod (Np.last2 m.1);
  complex_of := fun _ => true;
  zeros := fun s _ _ => (s, replicate (Z.to_nat (small_prod s)) 0%R);
  divide := fun m r => (m.1, (fun x => x / r)%R <$> m.2);
  imul := fun m f => (m.1, zip_with Rmult m.2 f);
  fft := fun m => m;
  ifft_real := fun m => m;
  resample_fft := fun m s =>
    (take (length m.1 - 2)%nat m.1 ++ Np.last2 s, m.2);
  resample_fft_add := fun f _ fomap => Ok (fomap.1, zip_with Rplus fomap.2 f.2);
  assign_all := fun o tmp =>
    if decide (o.1 = tmp.1) then Ok tmp else Raise ValueError;
  sharp_alm_info := fun lmax => lmax;
  alm_nelem := fun _ => 1;
  alm_zeros := fun _ _ _ => [0%R];
  map2alm := fun m _ => m.2;
  transfer_alm := fun _ a _ => a;
  transfer_alm_add := fun _ a _ o => zip_with Rplus o a;
  lmul := fun _ a f => zip_with Rmult a f;
  alm2map := fun a m => ((m.1, a), Ok ())
|}.

(** ** Concrete inputs *)

(** [Butterworth(lmin=1, lmax=5)] with the default step, shape and
    tolerance: two scales, the first cutoff as [_finalize] computes it. *)
Definition butterworth_1_5 : Butterworth.t :=
  Butterworth.mk 2 7 (1 / 1000) (Some 1%R) (Some 5%R) (Some 2)
    (Some [Np.round (1 * Np.power (1 / (1 / 1000) - 1) (ln 2 / 7)
                       * Np.power 2 (0 + 1 / 2))%R; 5]).

(** A flat one-pixel descriptor of pixel size 1. *)
Definition flat_pixel : UHT.t (E := SmallGrid) :=
  UHT.mk "flat" [1; 1] 1%R 5 [1%R].

(** A container whose second scale has the shape 2 x 2 where the engine
    built from [flat_pixel] and [butterworth_1_5] expects 1 x 1. *)
Definition mismatched_owave : multimap.t (E := SmallGrid) :=
  multimap.mk [([1; 1], [1%R]); ([2; 2], [1; 1; 1; 1]%R)] [] false.

(** ** Vocabulary of the properties *)


(** * Properties *)

(** ** Loading and the default basis *)

(** Had [ButterTrim] been bound before the class statement of the engine,
    the module would load: the failure below comes from the order of the
    definitions alone. *)
Lemma load_with_ButterTrim_bound :
  exists g, Loader.load {["ButterTrim"]} Loader.wavelets_py = Ok g
            /\ "WaveletTransform" ∈ g.
Proof.
  eexists. split; [vm_compute; reflexivity|].
  vm_compute. reflexivity.
Qed.

(** C4: loading [wavelets.py] stops with [NameError] at the default value
    [ButterTrim()] of [WaveletTransform.__init__], which is evaluated when
    the class body runs, before the class [ButterTrim] is bound; hence
    [WaveletTransform(uht)] with the default basis never succeeds. *)
Theorem C4_default_basis_unreachable :
  Loader.load ∅ Loader.wavelets_py = Raise (NameError "ButterTrim")
  /\ forall (E : Extern) (uht : UHT.t),
       WaveletTransform_default uht = Raise (NameError "ButterTrim").
Proof.
  assert (H : Loader.load ∅ Loader.wavelets_py = Raise (NameError "ButterTrim"))
    by (vm_compute; reflexivity).
  split; [exact H|].
  intros E uht. unfold WaveletTransform_default. rewrite H. reflexivity.
Qed.

(** ** The engine's properties *)

(** C10: the [wcs] property returns the pixel shape of the descriptor, not
    its coordinate mapping, so [geometry] is the pair (shape, shape). *)
Theorem C10_wcs_property_returns_shape `{E : Extern} (self : WaveletTransform.t) :
  let s := UHT.shape (WaveletTransform.uht self) in
  WaveletTransform.wcs self = WaveletTransform.PyShape s
  /\ WaveletTransform.geometry_ self
     = (WaveletTransform.PyShape s, WaveletTransform.PyShape s)
  /\ WaveletTransform.wcs self
     <> WaveletTransform.PyWcs (UHT.wcs (WaveletTransform.uht self)).
Proof.
  cbn. repeat split. discriminate.
Qed.

(** ** Construction of a basis with [lmax] only *)

(** C5 (evaluation of the code): with [lmax] given and [lmin] left at
    [None], the default 1 never reaches the attribute: [_finalize] reads
    [self.lmin = None] and the constructors of [Butterworth] and
    [ButterTrim] raise [TypeError]; an [AdriSD] instance, when the kernel
    routine returns, keeps [lmin = None]. *)
Theorem C5_lmin_default_not_stored (step shape tol lamb lmax : R) :
  Butterworth.__init__ step shape tol None (Some lmax) = Raise TypeError
  /\ ButterTrim.__init__ step shape tol None (Some lmax) = Raise TypeError
  /\ forall E : Extern,
       AdriSD.lmin <$> AdriSD.__init__ lamb None (Some lmax) <> Ok (Some 1%R).
Proof.
  repeat split.
  intros E. unfold AdriSD.__init__, AdriSD._finalize. cbn.
  destruct (get_sd_kernels lamb (Some lmax) None); cbn; discriminate.
Qed.

(** ** The flat geometry planner *)

Lemma zip_with_fmap_same {A B C} (f : B -> A -> C) (g : A -> B) (l : list A) :
  zip_with f (g <$> l) l = (fun x => f (g x) x) <$> l.
Proof.
  induction l as [|x l IH]; [reflexivity|]. cbn. now rewrite IH.
Qed.

Lemma flat_shape_eq `{E : Extern} (ishape : list Z) (iwcs : WCS) (ires ores : R) :
  (make_wavelet_geometry_flat ishape iwcs ires ores).1
  = (fun s => Z.min (Zceil (IZR s * (ires / ores)) + 5) s) <$> Np.last2 ishape.
Proof.
  unfold make_wavelet_geometry_flat. cbn [fst]. rewrite zip_with_fmap_same.
  apply list_fmap_ext. intros _ s _. unfold Np.ceil.
  replace (IZR s * ires / ores)%R with (IZR s * (ires / ores))%R
    by (unfold Rdiv; ring).
  reflexivity.
Qed.



(** On that input the planner returns 37 x 37 pixels. *)
Example flat_shape_64 :
  (make_wavelet_geometry_flat (E := SmallGrid) [3; 64; 64] 1%R 1 2).1 = [37; 37].
Proof.
  rewrite flat_shape_eq. cbn. assert (H : Zceil (64 * (1 / 2)) = 32) by (apply Zceil_eq; lra).
  rewrite H. reflexivity.
Qed.

(** ** Partition of unity *)

Lemma zip_with_fmap_both {A B C D} (f : B -> C -> D) (g : A -> B) (h : A -> C)
    (l : list A) :
  zip_with f (g <$> l) (h <$> l) = (fun x => f (g x) (h x)) <$> l.
Proof.
  induction l as [|x l IH]; [reflexivity|]. cbn. now rewrite IH.
Qed.

Section Telescope.
(** [K i] is the low-pass kernel of scale [i]; [N] the number of scales. *)
Variable K : Z -> R -> R.
Variable N : Z.
Hypothesis N_pos : 1 <= N.

(** The profile of scale [i] and the sum of the profiles below [j]. *)
Let profile (i : Z) (x : R) : R :=
  ((if i =? N - 1 then 1 else K i x) - (if 0 <? i then K (i - 1) x else 0))%R.




End Telescope.

Lemma int_IZR (z : Z) : Np.int_ (IZR z) = z.
Proof.
  unfold Np.int_. destruct (Rle_dec 0 (IZR z)).
  - apply ZfloorZ.
  - apply Zceil_eq. lra.
Qed.

Lemma arange_nonempty (n : Z) : Np.arange n <> [] -> 1 <= n.
Proof.
  unfold Np.arange. destruct (Z.to_nat n) eqn:Hn; [now cbn|]. lia.
Qed.

Lemma arange_length (n : Z) : length (Np.arange n) = Z.to_nat n.
Proof. unfold Np.arange. now rewrite length_fmap, length_seq. Qed.

Lemma setitem_last_inv {A} (a c : list A) (v : A) :
  Np.setitem_last a v = Ok c ->
  a <> [] /\ c = <[Nat.pred (length a) := v]> a.
Proof.
  destruct a; cbn; [discriminate|]. intros [= <-]. split; [discriminate|reflexivity].
Qed.


Lemma ButterTrim_init_inv (step shape trim lo hi : R) (b : ButterTrim.t) :
  ButterTrim.__init__ step shape trim (Some lo) (Some hi) = Ok b ->
  exists cut,
    let N := Np.int_ ((ln hi - ln lo) / ln step) in
    b = ButterTrim.mk step shape trim (Some lo) (Some hi) (Some N) (Some cut)
    /\ 1 <= N
    /\ Np.setitem_last
         ((fun i => Np.ceil (lo * Np.power ((1 + 2 * trim) / trim - 1) (ln step / shape)
                             * Np.power step (IZR i + 1 / 2)))%R <$> Np.arange N)
         (Np.int_ hi) = Ok cut.
Proof.
  unfold ButterTrim.__init__, ButterTrim._finalize. cbn.
  destruct (Np.setitem_last _ _) as [cut|] eqn:Hcut; cbn; [|discriminate].
  intros [= <-]. exists cut. cbn. split; [reflexivity|]. split; [|reflexivity].
  apply setitem_last_inv in Hcut as [Hne _].
  apply arange_nonempty. intros Hnil. apply Hne. now rewrite Hnil.
Qed.

(** The profile of a scale, as [__call__] computes it from the kernels. *)
Ltac call_profile :=
  intros; cbn;
  repeat match goal with
  | |- context [Z.eqb ?a ?b] => destruct (Z.eqb a b)
  | |- context [Z.ltb ?a ?b] => destruct (Z.ltb a b)
  end; cbn;
  unfold Np.full, trim_kernel;
  rewrite <- ?list_fmap_compose, ?zip_with_fmap_both;
  f_equal; apply list_fmap_ext; intros; cbn; lra.

Lemma Butterworth_call_profile (b : Butterworth.t) (N : Z) (lo : R) (i : Z) (l : list R) :
  Butterworth.n b = Some N -> Butterworth.lmin b = Some lo ->
  Butterworth.__call__ b i l
  = Ok ((fun x =>
           (if i =? N - 1 then 1
            else 1 / (1 + Np.power (x / (lo * Np.power (Butterworth.step b) (IZR i + 1 / 2)))
                                   (Butterworth.shape b / ln (Butterworth.step b))))
           - (if 0 <? i
              then 1 / (1 + Np.power (x / (lo * Np.power (Butterworth.step b) (IZR (i - 1) + 1 / 2)))
                                     (Butterworth.shape b / ln (Butterworth.step b)))
              else 0))%R <$> l).
Proof.
  unfold Butterworth.__call__, Butterworth.kernel. intros -> ->. call_profile.
Qed.

Lemma ButterTrim_call_profile (b : ButterTrim.t) (N : Z) (lo : R) (i : Z) (l : list R) :
  ButterTrim.n b = Some N -> ButterTrim.lmin b = Some lo ->
  ButterTrim.__call__ b i l
  = Ok ((fun x =>
           (if i =? N - 1 then 1
            else Np.clip
                   (1 / (1 + Np.power (x / (lo * Np.power (ButterTrim.step b) (IZR i + 1 / 2)))
                                      (ButterTrim.shape b / ln (ButterTrim.step b)))
                    * (1 + 2 * ButterTrim.trim b) - ButterTrim.trim b) 0 1)
           - (if 0 <? i
              then Np.clip
                     (1 / (1 + Np.power (x / (lo * Np.power (ButterTrim.step b) (IZR (i - 1) + 1 / 2)))
                                        (ButterTrim.shape b / ln (ButterTrim.step b)))
                      * (1 + 2 * ButterTrim.trim b) - ButterTrim.trim b) 0 1
              else 0))%R <$> l).
Proof.
  unfold ButterTrim.__call__, ButterTrim.kernel. intros -> ->. call_profile.
Qed.




(** Concrete instances: bounds [1, 2] and step 2 give one scale. *)
Lemma ln_2_pos : (0 < ln 2)%R.
Proof. rewrite <- ln_1. apply ln_increasing; lra. Qed.

Lemma n_of_1_2 : Np.int_ ((ln 2 - ln 1) / ln 2) = 1.
Proof.
  pose proof ln_2_pos. rewrite ln_1.
  replace ((ln 2 - 0) / ln 2)%R with (IZR 1) by (field; lra).
  apply int_IZR.
Qed.

Lemma Butterworth_init_1_2 :
  Butterworth.__init__ 2 7 (1 / 1000) (Some 1%R) (Some 2%R)
  = Ok (Butterworth.mk 2 7 (1 / 1000) (Some 1%R) (Some 2%R) (Some 1) (Some [2])).
Proof.
  unfold Butterworth.__init__, Butterworth._finalize. cbn.
  rewrite n_of_1_2. cbn. rewrite (int_IZR 2). reflexivity.
Qed.

Lemma ButterTrim_init_1_2 :
  ButterTrim.__init__ 2 7 (1 / 100) (Some 1%R) (Some 2%R)
  = Ok (ButterTrim.mk 2 7 (1 / 100) (Some 1%R) (Some 2%R) (Some 1) (Some [2])).
Proof.
  unfold ButterTrim.__init__, ButterTrim._finalize. cbn.
  rewrite n_of_1_2. cbn. rewrite (int_IZR 2). reflexivity.
Qed.


(** ** [with_bounds] *)

Lemma alloc_fresh `{E : Extern} (h : gmap nat basis) (b : basis) :
  h !! (alloc h b).1 = None.
Proof.
  unfold alloc. cbn. apply not_elem_of_dom, is_fresh.
Qed.

Lemma with_bounds_ref_Ok `{E : Extern} (h : gmap nat basis) (self : nat)
    (b b' : basis) (lmin lmax : option R) :
  h !! self = Some b -> basis_with_bounds b lmin lmax = Ok b' ->
  with_bounds_ref h self lmin lmax
  = (<[fresh (dom h) := b']> h, Ok (fresh (dom h))).
Proof.
  intros Hs Hb. unfold with_bounds_ref. now rewrite Hs, Hb.
Qed.

Lemma with_bounds_ref_Raise `{E : Extern} (h : gmap nat basis) (self : nat)
    (b : basis) (e : exn) (lmin lmax : option R) :
  h !! self = Some b -> basis_with_bounds b lmin lmax = Raise e ->
  with_bounds_ref h self lmin lmax = (h, Raise e).
Proof.
  intros Hs Hb. unfold with_bounds_ref. now rewrite Hs, Hb.
Qed.

(** C8: [with_bounds] leaves the receiver (and every other object) as it
    was, and two calls with the same arguments return references to two
    distinct new instances with equal attributes; when the constructor
    raises, both calls raise the same exception and allocate nothing. *)
Theorem C8_with_bounds_pure `{E : Extern}
    (h : gmap nat basis) (self : nat) (b : basis) (lmin lmax : option R) :
  h !! self = Some b ->
  let '(h1, r1) := with_bounds_ref h self lmin lmax in
  let '(h2, r2) := with_bounds_ref h1 self lmin lmax in
  (forall q x, h !! q = Some x -> h1 !! q = Some x /\ h2 !! q = Some x)
  /\ match r1, r2 with
     | Ok p1, Ok p2 =>
         p1 <> p2 /\ h !! p1 = None /\ h1 !! p2 = None
         /\ exists b', h2 !! p1 = Some b' /\ h2 !! p2 = Some b'
     | Raise e1, Raise e2 => e1 = e2 /\ h1 = h /\ h2 = h
     | _, _ => False
     end.
Proof.
  intros Hs. destruct (basis_with_bounds b lmin lmax) as [b'|e] eqn:Hb.
  - rewrite (with_bounds_ref_Ok h self b b') by assumption.
    set (p1 := fresh (dom h)).
    assert (Hp1 : h !! p1 = None) by apply not_elem_of_dom, is_fresh.
    assert (Hs1 : <[p1 := b']> h !! self = Some b).
    { rewrite lookup_insert_ne; [assumption|]. intros ->. congruence. }
    rewrite (with_bounds_ref_Ok _ self b b') by assumption.
    set (p2 := fresh (dom (<[p1 := b']> h))).
    assert (Hp2 : <[p1 := b']> h !! p2 = None) by apply not_elem_of_dom, is_fresh.
    assert (Hne : p1 <> p2).
    { intros Heq. rewrite <- Heq, lookup_insert_eq in Hp2. discriminate. }
    split.
    + intros q x Hq.
      assert (q <> p1) by (intros ->; congruence).
      assert (Hq1 : <[p1 := b']> h !! q = Some x) by now rewrite lookup_insert_ne.
      split; [assumption|].
      rewrite lookup_insert_ne; [assumption|]. intros ->. congruence.
    + repeat split; try assumption. exists b'. split.
      * rewrite lookup_insert_ne by congruence. apply lookup_insert_eq.
      * apply lookup_insert_eq.
  - rewrite (with_bounds_ref_Raise h self b e) by assumption.
    rewrite (with_bounds_ref_Raise h self b e) by assumption.
    repeat split; assumption.
Qed.

Lemma C8_with_bounds_pure_witness :
  let b := BW (Butterworth.mk 2 7 (1 / 1000) None None None None) in
  let h : gmap nat basis := {[ 0%nat := b ]} in
  let '(h1, r1) := with_bounds_ref (E := SmallGrid) h 0 (Some 1%R) (Some 2%R) in
  let '(h2, r2) := with_bounds_ref (E := SmallGrid) h1 0 (Some 1%R) (Some 2%R) in
  (forall q x, h !! q = Some x -> h1 !! q = Some x /\ h2 !! q = Some x)
  /\ match r1, r2 with
     | Ok p1, Ok p2 =>
         p1 <> p2 /\ h !! p1 = None /\ h1 !! p2 = None
         /\ exists b', h2 !! p1 = Some b' /\ h2 !! p2 = Some b'
     | Raise e1, Raise e2 => e1 = e2 /\ h1 = h /\ h2 = h
     | _, _ => False
     end.
Proof.
  intros b h.
  apply (C8_with_bounds_pure (E := SmallGrid) h 0 b (Some 1%R) (Some 2%R)).
  reflexivity.
Defined.

(** On that heap the call returns: the new instance is bound to [1, 2]. *)
Example with_bounds_returns :
  let b := BW (Butterworth.mk 2 7 (1 / 1000) None None None None) in
  exists p h1,
    with_bounds_ref (E := SmallGrid) {[ 0%nat := b ]} 0 (Some 1%R) (Some 2%R)
    = (h1, Ok p)
    /\ h1 !! p
       = Some (BW (Butterworth.mk 2 7 (1 / 1000) (Some 1%R) (Some 2%R)
                                  (Some 1) (Some [2])))
    /\ h1 !! 0%nat = Some b.
Proof.
  intros b. eexists _, _. split.
  - apply (with_bounds_ref_Ok _ 0%nat b); [reflexivity|].
    subst b. unfold basis_with_bounds, Butterworth.with_bounds.
    cbn [Butterworth.step Butterworth.shape Butterworth.tol].
    rewrite Butterworth_init_1_2. reflexivity.
  - split; [apply lookup_insert_eq|]. reflexivity.
Qed.

(** ** Per-scale cutoffs *)




Lemma ceil_IZR (z : Z) : Np.ceil (IZR z) = z.
Proof. apply Zceil_eq. lra. Qed.

Lemma arange_lookup (n : Z) (i : nat) :
  (i < Z.to_nat n)%nat -> Np.arange n !! i = Some (Z.of_nat i).
Proof.
  intros Hi. unfold Np.arange. rewrite list_lookup_fmap, lookup_seq_lt by lia.
  reflexivity.
Qed.

Lemma ln_quot (a b : R) : (0 < a)%R -> (0 < b)%R -> (ln a - ln b)%R = ln (a / b).
Proof.
  intros Ha Hb. unfold Rdiv. rewrite ln_mult, ln_Rinv; try lra.
  now apply Rinv_0_lt_compat.
Qed.

Lemma ln_pos (x : R) : (1 < x)%R -> (0 < ln x)%R.
Proof. intros Hx. rewrite <- ln_1. apply ln_increasing; lra. Qed.

(** [int((log(lmax) - log(lmin)) / log(step))] is the floor of
    [log(lmax / lmin) / log(step)] when [0 < lmin < lmax] and [1 < step]. *)
Lemma scale_count_floor (lo hi step : R) :
  (0 < lo)%R -> (lo < hi)%R -> (1 < step)%R ->
  Np.int_ ((ln hi - ln lo) / ln step) = Zfloor (ln (hi / lo) / ln step).
Proof.
  intros Hlo Hhi Hstep. rewrite ln_quot by lra.
  unfold Np.int_. destruct (Rle_dec _ _) as [|Hneg]; [reflexivity|].
  exfalso. apply Hneg. apply Rlt_le, Rdiv_lt_0_compat; [|now apply ln_pos].
  apply ln_pos. apply (Rmult_lt_reg_r lo); [assumption|].
  unfold Rdiv. rewrite Rmult_assoc, Rinv_l by lra. lra.
Qed.


Section Cutoffs.
(** [rnd] is [np.round] or [np.ceil]; [c] the cutoff factor of the basis. *)
Variable rnd : R -> Z.
Hypothesis rnd_mono : forall x y, (x <= y)%R -> rnd x <= rnd y.
Hypothesis rnd_IZR : forall z, rnd (IZR z) = z.
Variables lo c step : R.
Variables k N : Z.
Hypothesis lo_pos : (0 < lo)%R.
Hypothesis c_pos : (0 < c)%R.
Hypothesis step_gt : (1 < step)%R.
Hypothesis N_pos : 1 <= N.
Hypothesis below : (lo * Rpower step (IZR N) <= IZR k)%R.

Let raw : list Z :=
  (fun i => rnd (lo * c * Rpower step (IZR i + 1 / 2)))%R <$> Np.arange N.
Let cut : list Z := <[Nat.pred (length raw) := k]> raw.

Lemma raw_length : length raw = Z.to_nat N.
Proof. unfold raw. now rewrite length_fmap, arange_length. Qed.

Lemma raw_lookup (i : nat) :
  (i < Z.to_nat N)%nat ->
  raw !! i = Some (rnd (lo * c * Rpower step (IZR (Z.of_nat i) + 1 / 2))).
Proof.
  intros Hi. unfold raw. now rewrite list_lookup_fmap, arange_lookup.
Qed.



Lemma cut_lookup_below (i : nat) :
  (S i < Z.to_nat N)%nat ->
  cut !! i = Some (rnd (lo * c * Rpower step (IZR (Z.of_nat i) + 1 / 2))).
Proof.
  intros Hi. unfold cut. rewrite list_lookup_insert_ne by (rewrite raw_length; lia).
  apply raw_lookup. lia.
Qed.




End Cutoffs.

Lemma setitem_last_Ok {A} (a : list A) (v : A) :
  a <> [] -> Np.setitem_last a v = Ok (<[Nat.pred (length a) := v]> a).
Proof. destruct a; [congruence|reflexivity]. Qed.

Lemma exp_le (x y : R) : (x <= y)%R -> (exp x <= exp y)%R.
Proof.
  intros [Hlt| ->]; [|lra]. now apply Rlt_le, exp_increasing.
Qed.

Lemma ln_le (x y : R) : (0 < x)%R -> (x <= y)%R -> (ln x <= ln y)%R.
Proof.
  intros Hx [Hlt| ->]; [|lra]. now apply Rlt_le, ln_increasing.
Qed.

(** At least one scale when [lmin * step <= lmax]. *)
Lemma scale_count_pos (lo hi step : R) :
  (0 < lo)%R -> (1 < step)%R -> (lo * step <= hi)%R ->
  1 <= Zfloor (ln (hi / lo) / ln step).
Proof.
  intros Hlo Hstep Hhi. pose proof (ln_pos step Hstep) as Hls.
  apply Zfloor_lub.
  assert (ln step <= ln (hi / lo))%R.
  { apply ln_le; [lra|]. apply (Rmult_le_reg_r lo); [assumption|].
    unfold Rdiv. rewrite Rmult_assoc, Rinv_l by lra. lra. }
  apply (Rmult_le_reg_r (ln step)); [assumption|].
  unfold Rdiv. rewrite Rmult_assoc, Rinv_l by lra. lra.
Qed.

Lemma arange_nonempty_inv (n : Z) : 1 <= n -> Np.arange n <> [].
Proof.
  intros Hn Hnil. apply (f_equal length) in Hnil.
  rewrite arange_length in Hnil. cbn in Hnil. lia.
Qed.


Lemma ButterTrim_init_Ok (step shape trim lo : R) (k : Z) :
  (0 < lo)%R -> (1 < step)%R -> (lo * step <= IZR k)%R ->
  let N := Zfloor (ln (IZR k / lo) / ln step) in
  let raw := (fun i => Np.ceil (lo * Np.power ((1 + 2 * trim) / trim - 1) (ln step / shape)
                                * Np.power step (IZR i + 1 / 2)))%R <$> Np.arange N in
  ButterTrim.__init__ step shape trim (Some lo) (Some (IZR k))
  = Ok (ButterTrim.mk step shape trim (Some lo) (Some (IZR k)) (Some N)
          (Some (<[Nat.pred (length raw) := k]> raw))).
Proof.
  intros Hlo Hstep Hhi N raw.
  unfold ButterTrim.__init__, ButterTrim._finalize. cbn.
  rewrite scale_count_floor, int_IZR by nra. fold N. fold raw.
  rewrite setitem_last_Ok; [reflexivity|].
  unfold raw. intros Hnil. apply fmap_nil_inv in Hnil. revert Hnil.
  apply arange_nonempty_inv. now apply scale_count_pos.
Qed.




(** The default parameters ([shape = 7], [tol = 1e-3], [trim = 1e-2])
    satisfy the condition on the cutoff factor for every [step > 1]. *)
Lemma exp_10_large : (1024 < exp 10)%R.
Proof.
  pose proof (exp_ineq1 1 ltac:(lra)) as H1.
  assert (H2 : exp 2 = (exp 1 * exp 1)%R) by (rewrite <- exp_plus; f_equal; ring).
  assert (H4 : exp 4 = (exp 2 * exp 2)%R) by (rewrite <- exp_plus; f_equal; ring).
  assert (H8 : exp 8 = (exp 4 * exp 4)%R) by (rewrite <- exp_plus; f_equal; ring).
  assert (H10 : exp 10 = (exp 8 * exp 2)%R) by (rewrite <- exp_plus; f_equal; ring).
  assert (4 < exp 2)%R by nra. assert (16 < exp 4)%R by nra.
  assert (256 < exp 8)%R by nra. nra.
Qed.

Lemma default_factor_ok (a step : R) :
  (0 < a)%R -> (a <= 1024)%R -> (1 < step)%R ->
  (Np.power a (ln step / 7) <= Np.power step (3 / 2))%R.
Proof.
  intros Ha Hle Hstep. pose proof (ln_pos step Hstep) as Hls.
  unfold Np.power, Rpower. apply exp_le.
  assert (ln a <= 10)%R.
  { rewrite <- (ln_exp 10). apply ln_le; [assumption|].
    pose proof exp_10_large. lra. }
  nra.
Qed.

Lemma default_factors (step : R) :
  (1 < step)%R ->
  (Np.power (1 / (1 / 1000) - 1) (ln step / 7) <= Np.power step (3 / 2))%R
  /\ (Np.power ((1 + 2 * (1 / 100)) / (1 / 100) - 1) (ln step / 7)
      <= Np.power step (3 / 2))%R.
Proof.
  intros Hstep. split; apply default_factor_ok; lra.
Qed.


Lemma n_of_1_5 : Zfloor (ln (5 / 1) / ln 2) = 2.
Proof.
  pose proof ln_2_pos as H2.
  assert (H4 : ln 4 = (ln 2 + ln 2)%R)
    by (rewrite <- ln_mult by lra; f_equal; ring).
  assert (H8 : ln 8 = (ln 2 + ln 4)%R)
    by (rewrite <- ln_mult by lra; f_equal; ring).
  assert (ln 4 < ln 5)%R by (apply ln_increasing; lra).
  assert (ln 5 < ln 8)%R by (apply ln_increasing; lra).
  replace (5 / 1)%R with 5%R by field.
  assert (Hq : (ln 5 / ln 2 * ln 2 = ln 5)%R) by (field; lra).
  apply Zfloor_eq. split; nra.
Qed.



(** ** Geometries of the engine *)

Lemma bind_Ok_inv {A B} (m : result A) (k : A -> result B) (b : B) :
  (m ≫= k) = Ok b -> exists a, m = Ok a /\ k a = Ok b.
Proof.
  destruct m as [a|e]; cbn; [|discriminate]. intros H. now exists a.
Qed.

(** What the constructor stores: the basis it ends up with has cutoffs
    [cut]; on the flat path the geometries are the planned ones for all
    cutoffs but the last, followed by the geometry of the descriptor; on
    the curved path every cutoff goes through the curved planner. *)
Lemma init_geometries `{E : Extern} (uht : UHT.t) (b : basis) (e : WaveletTransform.t) :
  WaveletTransform.__init__ uht b = Ok e ->
  let ires := Rmax (pixshapebounds (UHT.shape uht) (UHT.wcs uht)).1
                   (pixshapebounds (UHT.shape uht) (UHT.wcs uht)).2 in
  WaveletTransform.uht e = uht
  /\ exists cut,
      basis_lmaxs (WaveletTransform.basis_ e) = Ok cut
      /\ if String.eqb (UHT.mode uht) "flat"
         then WaveletTransform.geometries e
              = (make_wavelet_geometry_flat (UHT.shape uht) (UHT.wcs uht) ires
                   <$> Np.init_ ((fun m => Rmax (PI / IZR m) ires) <$> cut))
                ++ [(UHT.shape uht, UHT.wcs uht)]
         else mapM (make_wavelet_geometry_curved (UHT.shape uht) (UHT.wcs uht))
                   ((fun m => Rmax (PI / IZR m / 2) ires) <$> cut)
              = Ok (WaveletTransform.geometries e).
Proof.
  intros H ires. unfold WaveletTransform.__init__ in H.
  destruct (pixshapebounds (UHT.shape uht) (UHT.wcs uht)) as [dy dx] eqn:Hps.
  cbn [fst snd] in ires.
  apply bind_Ok_inv in H as (b' & _ & H).
  apply bind_Ok_inv in H as (cut & Hcut & H).
  destruct (String.eqb (UHT.mode uht) "flat").
  - apply bind_Ok_inv in H as (flt & _ & H). injection H as <-.
    split; [reflexivity|]. exists cut. split; [exact Hcut|reflexivity].
  - apply bind_Ok_inv in H as (geos & Hgeos & H).
    apply bind_Ok_inv in H as (flt & _ & H). injection H as <-.
    split; [reflexivity|]. exists cut. split; [exact Hcut|exact Hgeos].
Qed.

(** C3 (amended): on the flat path the geometry stored for the top scale is
    the full-resolution geometry of the descriptor; on the curved path
    every scale, the top one included, gets the geometry that
    [make_wavelet_geometry_curved] plans for [max(pi / lmaxs[i] / 2, ires)]. *)
Theorem C3_top_scale_geometry `{E : Extern}
    (uht : UHT.t) (b : basis) (e : WaveletTransform.t) :
  WaveletTransform.__init__ uht b = Ok e ->
  let ires := Rmax (pixshapebounds (UHT.shape uht) (UHT.wcs uht)).1
                   (pixshapebounds (UHT.shape uht) (UHT.wcs uht)).2 in
  exists cut,
    basis_lmaxs (WaveletTransform.basis_ e) = Ok cut
    /\ (UHT.mode uht = "flat" ->
        last (WaveletTransform.geometries e) = Some (UHT.shape uht, UHT.wcs uht)
        /\ (cut <> [] -> length (WaveletTransform.geometries e) = length cut))
    /\ (UHT.mode uht <> "flat" ->
        mapM (make_wavelet_geometry_curved (UHT.shape uht) (UHT.wcs uht))
             ((fun m => Rmax (PI / IZR m / 2) ires) <$> cut)
        = Ok (WaveletTransform.geometries e)).
Proof.
  intros H ires. apply init_geometries in H as (_ & cut & Hcut & Hgeo).
  exists cut. split; [exact Hcut|]. split.
  - intros Hflat. rewrite Hflat in Hgeo. cbn in Hgeo. rewrite Hgeo. split.
    + apply last_snoc.
    + intros Hne. rewrite length_app, length_fmap. unfold Np.init_.
      rewrite length_take, length_fmap. cbn.
      destruct cut; [congruence|]. cbn. lia.
  - intros Hcurved. apply String.eqb_neq in Hcurved. rewrite Hcurved in Hgeo.
    exact Hgeo.
Qed.

Lemma C3_top_scale_geometry_witness :
  let uht := UHT.mk (E := SmallGrid) "flat" [1; 1] 1%R 2 [1%R] in
  let b := BW (Butterworth.mk 2 7 (1 / 1000) (Some 1%R) (Some 2%R) (Some 1) (Some [2])) in
  let e := WaveletTransform.mk uht b [([1; 1], 1%R)] [[1%R]] in
  exists cut,
    basis_lmaxs (WaveletTransform.basis_ e) = Ok cut
    /\ (UHT.mode uht = "flat" ->
        last (WaveletTransform.geometries e) = Some (UHT.shape uht, UHT.wcs uht)
        /\ (cut <> [] -> length (WaveletTransform.geometries e) = length cut))
    /\ (UHT.mode uht <> "flat" ->
        mapM (make_wavelet_geometry_curved (UHT.shape uht) (UHT.wcs uht))
             ((fun m => Rmax (PI / IZR m / 2) (Rmax 1 1)) <$> cut)
        = Ok (WaveletTransform.geometries e)).
Proof.
  intros uht b e.
  apply (C3_top_scale_geometry (E := SmallGrid) uht b e).
  reflexivity.
Defined.

(** A curved engine on a grid of pixel size [pi / 8] with a basis bound to
    [1, 2]: its only scale is planned at resolution [pi / 4]. *)
Lemma small_curved_plan (ishape : list Z) (w ores : R) :
  exists s,
    make_wavelet_geometry_curved (E := SmallGrid) ishape w ores
    = Ok (s, (PI / IZR (Np.ceil (PI / ores)))%R).
Proof.
  unfold make_wavelet_geometry_curved. cbn.
  destruct (Rle_dec _ _); cbn; eexists; reflexivity.
Qed.

Lemma coarse_resolution :
  (PI / IZR (Np.ceil (PI / Rmax (PI / 2 / 2) (Rmax (PI / 8) (PI / 8)))) = PI / 4)%R.
Proof.
  pose proof PI_RGT_0 as Hpi.
  rewrite (Rmax_left (PI / 8) (PI / 8)) by lra.
  rewrite (Rmax_left (PI / 2 / 2) (PI / 8)) by lra.
  replace (PI / (PI / 2 / 2))%R with (IZR 4) by (field; lra).
  now rewrite ceil_IZR.
Qed.

Lemma C3_counterexample :
  let uht := UHT.mk (E := SmallGrid) "curved" [9; 16] (PI / 8)%R 8 [1%R] in
  let b := BT (ButterTrim.mk 2 7 (1 / 100) (Some 1%R) (Some 2%R) (Some 1) (Some [2])) in
  BT <$> ButterTrim.__init__ 2 7 (1 / 100) (Some 1%R) (Some 2%R) = Ok b
  /\ exists e,
      WaveletTransform.__init__ uht b = Ok e
      /\ last (WaveletTransform.geometries e) <> Some (UHT.shape uht, UHT.wcs uht).
Proof.
  intros uht b. split; [now rewrite ButterTrim_init_1_2|].
  destruct (small_curved_plan [9; 16] (PI / 8)
              (Rmax (PI / 2 / 2) (Rmax (PI / 8) (PI / 8)))) as [s Hs].
  eexists. split.
  - unfold WaveletTransform.__init__.
    cbn -[make_wavelet_geometry_curved Rmax]. rewrite Hs.
    cbn -[Rmax]. reflexivity.
  - cbn -[Rmax]. intros [= _ Hw]. rewrite coarse_resolution in Hw.
    pose proof PI_RGT_0. lra.
Qed.

(** ** Failures and caller-supplied outputs *)









(** * Further properties of the module *)

(** ** Kernels and filters *)

Lemma clip_low (x : R) : (x <= 0)%R -> Np.clip x 0 1 = 0%R.
Proof.
  intros H. unfold Np.clip. rewrite Rmax_right by lra. apply Rmin_left. lra.
Qed.

Lemma clip_high (x : R) : (1 <= x)%R -> Np.clip x 0 1 = 1%R.
Proof.
  intros H. unfold Np.clip. rewrite Rmax_left by lra. apply Rmin_right. lra.
Qed.

Lemma clip_mid (x : R) : (0 <= x <= 1)%R -> Np.clip x 0 1 = x.
Proof.
  intros H. unfold Np.clip. rewrite Rmax_left by lra. apply Rmin_left. lra.
Qed.

Lemma clip_range (x : R) : (0 <= Np.clip x 0 1 <= 1)%R.
Proof.
  destruct (Rle_dec x 0); [rewrite clip_low by lra; lra|].
  destruct (Rle_dec 1 x); [rewrite clip_high by lra; lra|].
  rewrite clip_mid by lra. lra.
Qed.

Lemma clip_mono (x y : R) : (x <= y)%R -> (Np.clip x 0 1 <= Np.clip y 0 1)%R.
Proof.
  intros H. unfold Np.clip.
  apply Rle_min_compat_r, Rle_max_compat_r, H.
Qed.



(** The argument of the low-pass kernel of scale [i], as the source writes
    it: [(l / (lmin * step ** (i + 0.5))) ** (shape / log(step))].  It is
    at least [A] from the multipole
    [lmin * A ** (log(step) / shape) * step ** (i + 0.5)] on, and it
    decreases with the scale. *)
Lemma kernel_power_tail (lo step shape A i x : R) :
  (0 < lo)%R -> (1 < step)%R -> (0 < shape)%R -> (0 < A)%R ->
  (lo * Rpower A (ln step / shape) * Rpower step (i + 1 / 2) <= x)%R ->
  (A <= Rpower (x / (lo * Rpower step (i + 1 / 2))) (shape / ln step))%R.
Proof.
  intros Hlo Hstep Hshape HA Hx. pose proof (ln_pos step Hstep) as Hls.
  pose proof (exp_pos ((i + 1 / 2) * ln step)) as HS. fold (Rpower step (i + 1 / 2)) in HS.
  pose proof (exp_pos (ln step / shape * ln A)) as HP. fold (Rpower A (ln step / shape)) in HP.
  set (S := Rpower step (i + 1 / 2)) in *. set (P := Rpower A (ln step / shape)) in *.
  assert (Hd : (0 < lo * S)%R) by nra.
  assert (HPx : (P <= x / (lo * S))%R).
  { apply (Rmult_le_reg_r (lo * S)); [assumption|].
    unfold Rdiv. rewrite Rmult_assoc, Rinv_l by lra. lra. }
  replace A with (Rpower P (shape / ln step)) at 1.
  - apply Rle_Rpower_l; [|lra]. apply Rlt_le, Rdiv_lt_0_compat; lra.
  - unfold P. rewrite Rpower_mult.
    replace (ln step / shape * (shape / ln step))%R with 1%R by (field; lra).
    now apply Rpower_1.
Qed.

Lemma kernel_power_mono (lo step shape i j x : R) :
  (0 < lo)%R -> (1 < step)%R -> (0 < shape)%R -> (0 < x)%R -> (i <= j)%R ->
  (Rpower (x / (lo * Rpower step (j + 1 / 2))) (shape / ln step)
   <= Rpower (x / (lo * Rpower step (i + 1 / 2))) (shape / ln step))%R.
Proof.
  intros Hlo Hstep Hshape Hx Hij. pose proof (ln_pos step Hstep) as Hls.
  pose proof (exp_pos ((i + 1 / 2) * ln step)) as HSi. fold (Rpower step (i + 1 / 2)) in HSi.
  assert (HS : (Rpower step (i + 1 / 2) <= Rpower step (j + 1 / 2))%R)
    by (apply Rle_Rpower; lra).
  apply Rle_Rpower_l; [apply Rlt_le, Rdiv_lt_0_compat; lra|].
  split.
  - apply Rdiv_lt_0_compat; nra.
  - unfold Rdiv. apply Rmult_le_compat_l; [lra|].
    apply Rinv_le_contravar; nra.
Qed.

(** The low-pass response [1 / (1 + p)] for [p > 0]. *)
Lemma lowpass_range (p : R) : (0 < p)%R -> (0 < 1 / (1 + p) < 1)%R.
Proof.
  intros Hp. split.
  - apply Rdiv_lt_0_compat; lra.
  - apply (Rmult_lt_reg_r (1 + p)); [lra|].
    unfold Rdiv. rewrite Rmult_assoc, Rinv_l by lra. lra.
Qed.

Lemma lowpass_anti (p q : R) :
  (0 < p)%R -> (p <= q)%R -> (1 / (1 + q) <= 1 / (1 + p))%R.
Proof.
  intros Hp Hpq. unfold Rdiv. apply Rmult_le_compat_l; [lra|].
  apply Rinv_le_contravar; lra.
Qed.

(** X2: the tolerance of the Butterworth basis: from the analytic cutoff
    [lmin * (1 / tol - 1) ** (log(step) / shape) * step ** (i + 0.5)] on,
    the low-pass kernel of scale [i] is positive and at most [tol]. *)
Theorem Butterworth_kernel_tail (b : Butterworth.t) (lo : R) (i : Z) (l : list R) :
  Butterworth.lmin b = Some lo ->
  (0 < lo)%R -> (1 < Butterworth.step b)%R -> (0 < Butterworth.shape b)%R ->
  (0 < Butterworth.tol b < 1)%R ->
  Forall (fun x => lo * Np.power (1 / Butterworth.tol b - 1)
                                 (ln (Butterworth.step b) / Butterworth.shape b)
                   * Np.power (Butterworth.step b) (IZR i + 1 / 2) <= x)%R l ->
  exists k, Butterworth.kernel b i l = Ok k
            /\ length k = length l
            /\ Forall (fun y => 0 < y <= Butterworth.tol b)%R k.
Proof.
  intros Hmin Hlo Hstep Hshape Htol Hl.
  unfold Butterworth.kernel. rewrite Hmin. cbn. eexists. split; [reflexivity|].
  split; [apply length_fmap|].
  apply Forall_fmap. eapply Forall_impl; [exact Hl|]. intros x Hx. cbn.
  assert (HA : (0 < 1 / Butterworth.tol b - 1)%R).
  { assert (1 < 1 / Butterworth.tol b)%R; [|lra].
    apply (Rmult_lt_reg_r (Butterworth.tol b)); [lra|].
    unfold Rdiv. rewrite Rmult_assoc, Rinv_l by lra. lra. }
  pose proof (kernel_power_tail lo _ _ _ (IZR i) x Hlo Hstep Hshape HA Hx) as Hp.
  unfold Np.power in *.
  split; [apply lowpass_range; lra|].
  eapply Rle_trans; [apply (lowpass_anti _ _ HA Hp)|].
  right. field. lra.
Qed.

Lemma Butterworth_kernel_tail_witness :
  let b := Butterworth.mk 2 7 (1 / 1000) (Some 1%R) (Some 5%R) (Some 2) (Some [3; 5]) in
  let x := (1 * Np.power (1 / (1 / 1000) - 1) (ln 2 / 7) * Np.power 2 (IZR 0 + 1 / 2))%R in
  exists k, Butterworth.kernel b 0 [x] = Ok k
            /\ length k = 1%nat
            /\ Forall (fun y => 0 < y <= 1 / 1000)%R k.
Proof.
  intros b x.
  apply (Butterworth_kernel_tail b 1 0 [x]); cbn; try lra; try reflexivity.
  constructor; [apply Rle_refl|constructor].
Defined.

(** The trimmed kernel of scale [i] is exactly zero from
    [lmin * ((1 + 2 trim) / trim - 1) ** (log(step) / shape) * step ** (i + 0.5)]
    on. *)
Lemma trimmed_response_zero (lo step shape t i x : R) :
  (0 < lo)%R -> (1 < step)%R -> (0 < shape)%R -> (0 < t)%R ->
  (lo * Rpower ((1 + 2 * t) / t - 1) (ln step / shape) * Rpower step (i + 1 / 2) <= x)%R ->
  Np.clip (1 / (1 + Np.power (x / (lo * Np.power step (i + 1 / 2))) (shape / ln step))
           * (1 + 2 * t) - t) 0 1 = 0%R.
Proof.
  intros Hlo Hstep Hshape Ht Hx.
  assert (HA : (0 < (1 + 2 * t) / t - 1)%R).
  { replace ((1 + 2 * t) / t - 1)%R with ((1 + t) / t)%R by (field; lra).
    apply Rdiv_lt_0_compat; lra. }
  pose proof (kernel_power_tail lo step shape _ i x Hlo Hstep Hshape HA Hx) as Hp.
  pose proof (lowpass_anti _ _ HA Hp) as Hy.
  replace (1 / (1 + ((1 + 2 * t) / t - 1)))%R with (t / (1 + 2 * t))%R in Hy
    by (field; lra).
  assert (Ht2 : (t / (1 + 2 * t) * (1 + 2 * t) = t)%R) by (field; lra).
  apply clip_low. unfold Np.power. nra.
Qed.

(** X3: compact support of the trimmed basis: below the top scale, the filter
    of scale [i] of a constructed [ButterTrim] instance vanishes at every
    multipole from its stored cutoff [lmaxs[i]] on. *)
Theorem ButterTrim_compact_support
    (step shape trim lo hi : R) (b : ButterTrim.t) (cut : list Z)
    (N : Z) (i : nat) (m : Z) (l : list R) :
  (0 < lo)%R -> (1 < step)%R -> (0 < shape)%R -> (0 < trim)%R ->
  ButterTrim.__init__ step shape trim (Some lo) (Some hi) = Ok b ->
  ButterTrim.n b = Some N -> ButterTrim.lmaxs b = Some cut ->
  Z.of_nat i < N - 1 -> cut !! i = Some m ->
  Forall (fun x => IZR m <= x)%R l ->
  ButterTrim.__call__ b (Z.of_nat i) l = Ok (Np.full l 0%R).
Proof.
  intros Hlo Hstep Hshape Htrim Hb Hn Hcut Hi Hm Hl.
  apply ButterTrim_init_inv in Hb as (cut' & -> & HN & Hset).
  cbn in Hn, Hcut. injection Hn as <-. injection Hcut as <-.
  apply setitem_last_inv in Hset as [_ ->].
  rewrite cut_lookup_below in Hm by lia. injection Hm as <-.
  set (c := Np.power ((1 + 2 * trim) / trim - 1) (ln step / shape)) in *.
  assert (Hc : (0 < c)%R) by apply exp_pos.
  set (cutoff := (lo * c * Rpower step (IZR (Z.of_nat i) + 1 / 2))%R) in *.
  assert (Hceil : (cutoff <= IZR (Np.ceil cutoff))%R) by apply Zceil_bound.
  assert (Hprev : (lo * c * Rpower step (IZR (Z.of_nat i - 1) + 1 / 2) <= cutoff)%R).
  { unfold cutoff. apply Rmult_le_compat_l; [nra|].
    apply Rle_Rpower; [lra|]. rewrite minus_IZR. lra. }
  erewrite ButterTrim_call_profile; [|reflexivity|reflexivity].
  f_equal. unfold Np.full. apply Forall_fmap_ext.
  eapply Forall_impl; [exact Hl|]. intros x Hx. cbn beta in Hx.
  assert (Hcx : (cutoff <= x)%R) by lra.
  assert (Hpx : (lo * c * Rpower step (IZR (Z.of_nat i - 1) + 1 / 2) <= x)%R) by lra.
  pose proof (trimmed_response_zero lo step shape trim _ x
                Hlo Hstep Hshape Htrim Hcx) as Hz.
  pose proof (trimmed_response_zero lo step shape trim _ x
                Hlo Hstep Hshape Htrim Hpx) as Hz'.
  cbn.
  destruct (Z.eqb_spec (Z.of_nat i) (Np.int_ ((ln hi - ln lo) / ln step) - 1));
    [lia|].
  rewrite Hz. destruct (0 <? Z.of_nat i); [rewrite Hz'|]; lra.
Qed.

Lemma ButterTrim_init_1_5 :
  ButterTrim.__init__ 2 7 (1 / 100) (Some 1%R) (Some 5%R)
  = Ok (ButterTrim.mk 2 7 (1 / 100) (Some 1%R) (Some 5%R) (Some 2)
          (Some [Np.ceil (1 * Np.power ((1 + 2 * (1 / 100)) / (1 / 100) - 1) (ln 2 / 7)
                            * Np.power 2 (0 + 1 / 2))%R; 5])).
Proof.
  pose proof (ButterTrim_init_Ok 2 7 (1 / 100) 1 5
                ltac:(lra) ltac:(lra) ltac:(lra)) as H.
  cbv zeta in H. rewrite n_of_1_5 in H. exact H.
Qed.

Lemma ButterTrim_compact_support_witness :
  let m := Np.ceil (1 * Np.power ((1 + 2 * (1 / 100)) / (1 / 100) - 1) (ln 2 / 7)
                      * Np.power 2 (0 + 1 / 2))%R in
  let b := ButterTrim.mk 2 7 (1 / 100) (Some 1%R) (Some 5%R) (Some 2) (Some [m; 5]) in
  ButterTrim.__call__ b 0 [IZR m; (IZR m + 1)%R] = Ok [0%R; 0%R].
Proof.
  intros m b.
  apply (ButterTrim_compact_support 2 7 (1 / 100) 1 5 b [m; 5] 2 0%nat m
           [IZR m; (IZR m + 1)%R]); try lra; try reflexivity.
  - exact ButterTrim_init_1_5.
  - constructor; [lra|]. constructor; [lra|constructor].
Defined.

(** X4: every filter value of a bound Butterworth or trimmed basis lies in
    [0, 1] at positive multipoles: consecutive low-pass kernels are ordered,
    so their differences are non-negative. *)
Theorem filters_unit_interval
    (step shape tol trim lo : R) (hi : option R) (N : Z) (cw ct : option (list Z))
    (i : Z) (l : list R) :
  (0 < lo)%R -> (1 < step)%R -> (0 < shape)%R -> (0 <= trim)%R ->
  Forall (fun x => 0 < x)%R l ->
  (exists p,
     Butterworth.__call__ (Butterworth.mk step shape tol (Some lo) hi (Some N) cw) i l
     = Ok p
     /\ length p = length l /\ Forall (fun y => 0 <= y <= 1)%R p)
  /\ (exists p,
        ButterTrim.__call__ (ButterTrim.mk step shape trim (Some lo) hi (Some N) ct) i l
        = Ok p
        /\ length p = length l /\ Forall (fun y => 0 <= y <= 1)%R p).
Proof.
  intros Hlo Hstep Hshape Htrim Hl.
  assert (Hk : forall x, (0 < x)%R ->
             let p := fun j : Z =>
               Np.power (x / (lo * Np.power step (IZR j + 1 / 2))) (shape / ln step) in
             (0 < 1 / (1 + p i) < 1)%R /\ (0 < 1 / (1 + p (i - 1)%Z) < 1)%R
             /\ (1 / (1 + p (i - 1)%Z) <= 1 / (1 + p i))%R).
  { intros x Hx p.
    assert (Hp : forall j, (0 < p j)%R) by (intros j; apply exp_pos).
    split; [apply lowpass_range, Hp|]. split; [apply lowpass_range, Hp|].
    apply lowpass_anti; [apply Hp|].
    unfold p, Np.power. apply kernel_power_mono; try assumption.
    rewrite minus_IZR. lra. }
  split.
  - erewrite Butterworth_call_profile; [|reflexivity|reflexivity].
    eexists. split; [reflexivity|]. split; [apply length_fmap|].
    apply Forall_fmap. eapply Forall_impl; [exact Hl|]. intros x Hx. cbn.
    destruct (Hk x Hx) as (Hi & Hp & Hle). cbn in Hi, Hp, Hle.
    destruct (i =? N - 1), (0 <? i); lra.
  - erewrite ButterTrim_call_profile; [|reflexivity|reflexivity].
    eexists. split; [reflexivity|]. split; [apply length_fmap|].
    apply Forall_fmap. eapply Forall_impl; [exact Hl|]. intros x Hx. cbn.
    destruct (Hk x Hx) as (Hi & Hp & Hle). cbn in Hi, Hp, Hle.
    match goal with
    | |- context [if 0 <? i then Np.clip ?u 0 1 else _] =>
        pose proof (clip_range u) as Hu
    end.
    match goal with
    | |- context [if i =? N - 1 then _ else Np.clip ?v 0 1] =>
        pose proof (clip_range v) as Hv;
        match type of Hu with
        | (0 <= Np.clip ?u 0 1 <= 1)%R =>
            assert (Huv : (Np.clip u 0 1 <= Np.clip v 0 1)%R)
              by (apply clip_mono; nra)
        end
    end.
    destruct (i =? N - 1), (0 <? i); lra.
Qed.

Lemma filters_unit_interval_witness :
  (exists p,
     Butterworth.__call__
       (Butterworth.mk 2 7 (1 / 1000) (Some 1%R) (Some 5%R) (Some 2) (Some [3; 5]))
       1 [1; 2; 5]%R = Ok p
     /\ length p = 3%nat /\ Forall (fun y => 0 <= y <= 1)%R p)
  /\ (exists p,
        ButterTrim.__call__
          (ButterTrim.mk 2 7 (1 / 100) (Some 1%R) (Some 5%R) (Some 2) (Some [3; 5]))
          1 [1; 2; 5]%R = Ok p
        /\ length p = 3%nat /\ Forall (fun y => 0 <= y <= 1)%R p).
Proof.
  apply (filters_unit_interval 2 7 (1 / 1000) (1 / 100) 1 (Some 5%R) 2
           (Some [3; 5]) (Some [3; 5]) 1 [1; 2; 5]%R); try lra.
  repeat (constructor; [lra|]). constructor.
Defined.

(** ** Construction of a basis *)





(** X6: evaluating a basis whose bounds were never fixed raises
    [AttributeError]: the constructor without [lmax] returns an instance
    with neither [n] nor [profiles], which [__call__] reads first. *)
Theorem unbound_basis_call_raises `{E : Extern}
    (step shape tol lamb : R) (lmin : option R) (i : Z) (l : list R) :
  (Butterworth.__init__ step shape tol lmin None ≫= fun b => Butterworth.__call__ b i l)
  = Raise (AttributeError "n")
  /\ (ButterTrim.__init__ step shape tol lmin None ≫= fun b => ButterTrim.__call__ b i l)
     = Raise (AttributeError "n")
  /\ (AdriSD.__init__ lamb lmin None ≫= fun b => AdriSD.__call__ b i l)
     = Raise (AttributeError "profiles")
  /\ (AdriSD.__init__ lamb lmin None ≫= AdriSD.n)
     = Raise (AttributeError "profiles").
Proof. repeat split. Qed.

(** ** Planned geometries *)

(** X7: the flat planner never returns fewer pixels than [min(5, input)] on an
    axis nor more than the input, and at a target resolution that is not
    coarser than the input resolution it returns the input pixel shape. *)
Theorem flat_planner_bounds `{E : Extern}
    (ishape : list Z) (iwcs : WCS) (ires ores : R) :
  (0 < ires)%R -> (0 < ores)%R -> Forall (fun s => 0 <= s) (Np.last2 ishape) ->
  let oshape := (make_wavelet_geometry_flat ishape iwcs ires ores).1 in
  Forall2 (fun o s => Z.min 5 s <= o <= s) oshape (Np.last2 ishape)
  /\ ((ores <= ires)%R -> oshape = Np.last2 ishape).
Proof.
  intros Hi Ho Hs oshape. subst oshape. rewrite flat_shape_eq.
  assert (Hr : (0 < ires / ores)%R) by (apply Rdiv_lt_0_compat; lra).
  split.
  - apply Forall2_fmap_l, Forall_Forall2_diag.
    eapply Forall_impl; [exact Hs|]. intros s Hs0. cbn.
    assert (0 <= Zceil (IZR s * (ires / ores))).
    { apply le_IZR. destruct (Zceil_bound (IZR s * (ires / ores))) as [_ Hc].
      apply IZR_le in Hs0. eapply Rle_trans; [|exact Hc]. nra. }
    lia.
  - intros Hfine. rewrite <- (list_fmap_id (Np.last2 ishape)) at 2.
    apply Forall_fmap_ext. eapply Forall_impl; [exact Hs|]. intros s Hs0. cbn.
    assert (s <= Zceil (IZR s * (ires / ores))).
    { apply le_IZR. destruct (Zceil_bound (IZR s * (ires / ores))) as [_ Hc].
      apply IZR_le in Hs0. eapply Rle_trans; [|exact Hc].
      assert (1 <= ires / ores)%R.
      { apply (Rmult_le_reg_r ores); [assumption|].
        unfold Rdiv. rewrite Rmult_assoc, Rinv_l by lra. lra. }
      nra. }
    lia.
Qed.

Lemma flat_planner_bounds_witness :
  let oshape := (make_wavelet_geometry_flat (E := SmallGrid) [3; 64; 4] 1%R 2 1).1 in
  Forall2 (fun o s => Z.min 5 s <= o <= s) oshape [64; 4]
  /\ ((1 <= 2)%R -> oshape = [64; 4]).
Proof.
  apply (flat_planner_bounds (E := SmallGrid) [3; 64; 4] 1%R 2 1); try lra.
  repeat (constructor; [lia|]). constructor.
Defined.



(** ** Construction of the engine *)

Lemma mapM_result_length {A B} (f : A -> result B) (l : list A) (r : list B) :
  mapM f l = Ok r -> length r = length l.
Proof.
  revert r. induction l as [|x l IH]; intros r H.
  - injection H as <-. reflexivity.
  - cbn in H. apply bind_Ok_inv in H as (y & _ & H).
    apply bind_Ok_inv in H as (k & Hk & H). injection H as <-.
    cbn. f_equal. now apply IH.
Qed.

Lemma enumerate_length {A} (a : list A) : length (enumerate a) = length a.
Proof.
  unfold enumerate. rewrite length_zip_with, arange_length. lia.
Qed.

(** X9: scale counts: the constructor stores one filter per geometry; there is
    one geometry per cutoff of the basis on the curved path, and on the flat
    path as soon as the basis has a cutoff. *)
Theorem engine_scale_counts `{E : Extern}
    (uht : UHT.t) (b : basis) (e : WaveletTransform.t) :
  WaveletTransform.__init__ uht b = Ok e ->
  length (WaveletTransform.filters e) = length (WaveletTransform.geometries e)
  /\ exists cut,
       basis_lmaxs (WaveletTransform.basis_ e) = Ok cut
       /\ (cut <> [] \/ UHT.mode uht <> "flat" ->
           length (WaveletTransform.geometries e) = length cut).
Proof.
  intros H. pose proof (init_geometries uht b e H) as (_ & cut & Hcut & Hgeo).
  cbv zeta in Hgeo. split.
  - unfold WaveletTransform.__init__ in H.
    destruct (pixshapebounds (UHT.shape uht) (UHT.wcs uht)) as [dy dx].
    apply bind_Ok_inv in H as (b' & _ & H).
    apply bind_Ok_inv in H as (cut' & _ & H).
    destruct (String.eqb (UHT.mode uht) "flat").
    + apply bind_Ok_inv in H as (flt & Hflt & H). injection H as <-. cbn.
      apply mapM_result_length in Hflt. now rewrite Hflt, enumerate_length.
    + apply bind_Ok_inv in H as (geos & _ & H).
      apply bind_Ok_inv in H as (flt & Hflt & H). injection H as <-. cbn.
      apply mapM_result_length in Hflt. now rewrite Hflt, enumerate_length.
  - exists cut. split; [exact Hcut|]. intros Hcase.
    destruct (String.eqb_spec (UHT.mode uht) "flat") as [Hflat|Hcurved].
    + destruct Hcase as [Hne|Hno]; [|contradiction].
      rewrite Hgeo, length_app, length_fmap. unfold Np.init_.
      rewrite length_take, length_fmap. cbn.
      destruct cut; [congruence|]. cbn. lia.
    + apply mapM_result_length in Hgeo. now rewrite Hgeo, length_fmap.
Qed.

Lemma engine_scale_counts_witness :
  let uht := UHT.mk (E := SmallGrid) "flat" [1; 1] 1%R 2 [1%R] in
  let b := BW (Butterworth.mk 2 7 (1 / 1000) (Some 1%R) (Some 2%R) (Some 1) (Some [2])) in
  let e := WaveletTransform.mk uht b [([1; 1], 1%R)] [[1%R]] in
  length (WaveletTransform.filters e) = length (WaveletTransform.geometries e)
  /\ exists cut,
       basis_lmaxs (WaveletTransform.basis_ e) = Ok cut
       /\ (cut <> [] \/ UHT.mode uht <> "flat" ->
           length (WaveletTransform.geometries e) = length cut).
Proof.
  intros uht b e.
  apply (engine_scale_counts (E := SmallGrid) uht b e). reflexivity.
Defined.



(** An engine built from a basis without bounds, on a full-sky grid of
    pixel size [pi / 8] whose descriptor allows multipoles up to 2. *)
Lemma derived_lmax : Rmin (IZR (Np.ceil (PI / Rmax (PI / 8) (PI / 8)))) 2 = 2%R.
Proof.
  pose proof PI_RGT_0. rewrite Rmax_left by lra.
  replace (PI / (PI / 8))%R with (IZR 8) by (field; lra).
  rewrite ceil_IZR. apply Rmin_right. lra.
Qed.

Lemma derived_lmin :
  Rmin (IZR (Np.ceil (PI / Rmax (8 * (PI / 8)) (16 * (PI / 8))))) 2 = 1%R.
Proof.
  pose proof PI_RGT_0. rewrite Rmax_right by lra.
  replace (PI / (16 * (PI / 8)))%R with (1 / 2)%R by (field; lra).
  assert (Hc : Np.ceil (1 / 2) = 1) by (apply Zceil_eq; lra).
  rewrite Hc. apply Rmin_left. lra.
Qed.

Lemma unbound_engine :
  WaveletTransform.__init__
    (UHT.mk (E := SmallGrid) "flat" [8; 16] (PI / 8)%R 2 [1%R])
    (BW (Butterworth.mk 2 7 (1 / 1000) None None None None))
  = Ok (WaveletTransform.mk
          (UHT.mk (E := SmallGrid) "flat" [8; 16] (PI / 8)%R 2 [1%R])
          (BW (Butterworth.mk 2 7 (1 / 1000) (Some 1%R) (Some 2%R) (Some 1) (Some [2])))
          [([8; 16], (PI / 8)%R)] [[1%R]]).
Proof.
  unfold WaveletTransform.__init__.
  cbn -[Rmax Rmin Butterworth.__init__].
  rewrite derived_lmax, derived_lmin. unfold Butterworth.with_bounds.
  cbn [Butterworth.step Butterworth.shape Butterworth.tol].
  rewrite Butterworth_init_1_2. reflexivity.
Qed.


(** X11: on the flat path every stored geometry is the descriptor's own or has
    pixel axes no longer than the descriptor's. *)
Theorem engine_flat_shapes_bounded `{E : Extern}
    (uht : UHT.t) (b : basis) (e : WaveletTransform.t) :
  WaveletTransform.__init__ uht b = Ok e ->
  UHT.mode uht = "flat" ->
  Forall (fun g : geometry =>
            g = (UHT.shape uht, UHT.wcs uht)
            \/ Forall2 Z.le g.1 (Np.last2 (UHT.shape uht)))
         (WaveletTransform.geometries e).
Proof.
  intros H Hflat. apply init_geometries in H as (_ & cut & _ & Hgeo).
  rewrite Hflat in Hgeo. cbn in Hgeo. rewrite Hgeo.
  apply Forall_app. split.
  - apply Forall_fmap, Forall_forall. intros ores _. right.
    unfold compose. rewrite flat_shape_eq.
    apply Forall2_fmap_l, Forall_Forall2_diag, Forall_forall.
    intros s _. apply Z.le_min_r.
  - constructor; [now left|constructor].
Qed.

Lemma engine_flat_shapes_bounded_witness :
  let uht := UHT.mk (E := SmallGrid) "flat" [8; 16] (PI / 8)%R 2 [1%R] in
  let e := WaveletTransform.mk uht
             (BW (Butterworth.mk 2 7 (1 / 1000) (Some 1%R) (Some 2%R) (Some 1) (Some [2])))
             [([8; 16], (PI / 8)%R)] [[1%R]] in
  Forall (fun g : geometry =>
            g = (UHT.shape uht, UHT.wcs uht)
            \/ Forall2 Z.le g.1 (Np.last2 (UHT.shape uht)))
         (WaveletTransform.geometries e).
Proof.
  intros uht e.
  apply (engine_flat_shapes_bounded (E := SmallGrid) uht
           (BW (Butterworth.mk 2 7 (1 / 1000) None None None None)) e).
  - exact unbound_engine.
  - reflexivity.
Defined.

(** ** The inverse transform *)

Lemma wave2map_flat_loop_uht `{E : Extern} (e1 e2 : WaveletTransform.t)
    (wave : multimap.t) (todo : list (Z * geometry)) (fomap : ndmap) :
  WaveletTransform.uht e1 = WaveletTransform.uht e2 ->
  WaveletTransform.wave2map_flat_loop e1 wave todo fomap
  = WaveletTransform.wave2map_flat_loop e2 wave todo fomap.
Proof.
  intros Hu. revert fomap. induction todo as [|[i g] todo IH]; intros fomap.
  - reflexivity.
  - cbn. destruct (getitem (multimap.map wave) i) as [wi|]; [|reflexivity]. cbn.
    rewrite Hu. destruct (resample_fft_add _ _ _); [|reflexivity]. cbn. apply IH.
Qed.

(** X12: the flat inverse transform reads neither the filters nor the basis of
    the engine: two engines with the same descriptor and geometries give
    the same result, whatever their filters and bases. *)
Theorem wave2map_flat_ignores_filters `{E : Extern}
    (e1 e2 : WaveletTransform.t) (wave : multimap.t) (omap : option ndmap) :
  WaveletTransform.uht e1 = WaveletTransform.uht e2 ->
  WaveletTransform.geometries e1 = WaveletTransform.geometries e2 ->
  UHT.mode (WaveletTransform.uht e1) = "flat" ->
  WaveletTransform.wave2map e1 wave omap = WaveletTransform.wave2map e2 wave omap.
Proof.
  intros Hu Hg Hflat. unfold WaveletTransform.wave2map.
  rewrite <- Hu, Hflat, <- Hg. cbn.
  now rewrite (wave2map_flat_loop_uht e1 e2).
Qed.

Lemma wave2map_flat_ignores_filters_witness :
  let uht := UHT.mk (E := SmallGrid) "flat" [1; 1] 1%R 5 [1%R] in
  let e1 := WaveletTransform.mk uht (BW butterworth_1_5)
              [([1; 1], 1%R); ([1; 1], 1%R)] [[1%R]; [0%R]] in
  let e2 := WaveletTransform.mk uht
              (BT (ButterTrim.mk 2 7 (1 / 100) None None None None))
              [([1; 1], 1%R); ([1; 1], 1%R)] [] in
  WaveletTransform.wave2map e1 mismatched_owave None
  = WaveletTransform.wave2map e2 mismatched_owave None.
Proof.
  intros uht e1 e2.
  apply (wave2map_flat_ignores_filters (E := SmallGrid) e1 e2 mismatched_owave None);
    reflexivity.
Defined.

(** ** The scale-discrete basis *)

Lemma getitem_elem_of {A} (a : list A) (i : Z) (x : A) :
  getitem a i = Ok x -> x ∈ a.
Proof.
  unfold getitem. destruct (_ || _); [discriminate|].
  destruct (a !! _) eqn:Hl; [|discriminate]. intros [= <-].
  eapply list_elem_of_lookup_2, Hl.
Qed.

Lemma last_elem_of {A} (a : list A) (x d : A) : List.last (x :: a) d ∈ x :: a.
Proof.
  revert x. induction a as [|y a IH]; intros x.
  - cbn. left.
  - change (List.last (x :: y :: a) d) with (List.last (y :: a) d).
    right. apply IH.
Qed.

Lemma mapM_result_Forall {A B} (f : A -> result B) (P : B -> Prop)
    (l : list A) (r : list B) :
  (forall x y, f x = Ok y -> P y) -> mapM f l = Ok r -> Forall P r.
Proof.
  intros Hf. revert r. induction l as [|x l IH]; intros r H.
  - injection H as <-. constructor.
  - cbn in H. apply bind_Ok_inv in H as (y & Hy & H).
    apply bind_Ok_inv in H as (k & Hk & H). injection H as <-.
    constructor; [eapply Hf, Hy|now apply IH].
Qed.

(** Piecewise-linear interpolation of non-negative samples is non-negative. *)
Lemma interp_nonneg (fp : list R) (x y : R) :
  Forall (fun v => 0 <= v)%R fp -> interp fp x = Ok y -> (0 <= y)%R.
Proof.
  intros Hfp. rewrite Forall_forall in Hfp.
  unfold interp. destruct fp as [|f0 fp]; [discriminate|].
  destruct (Rle_dec x 0).
  - intros [= <-]. apply Hfp. left.
  - destruct (Rle_dec _ x).
    + intros [= <-]. apply Hfp, last_elem_of.
    + intros H. apply bind_Ok_inv in H as (lo & Hlo & H).
      apply bind_Ok_inv in H as (hi & Hhi & H). injection H as <-.
      apply getitem_elem_of, Hfp in Hlo. apply getitem_elem_of, Hfp in Hhi.
      destruct (Zfloor_bound x) as [Hk1 Hk2]. nra.
Qed.

(** X13: the filters of a finalised [AdriSD] instance are non-negative: the
    kernels are squared at construction and interpolated linearly. *)
Theorem AdriSD_filters_nonneg `{E : Extern}
    (lamb lmax : R) (lmin : option R) (b : AdriSD.t) (i : Z) (l p : list R) :
  AdriSD.__init__ lamb lmin (Some lmax) = Ok b ->
  AdriSD.__call__ b i l = Ok p ->
  length p = length l /\ Forall (fun y => 0 <= y)%R p.
Proof.
  intros Hb Hp. unfold AdriSD.__init__, AdriSD._finalize in Hb.
  apply bind_Ok_inv in Hb as (k & _ & Hb). injection Hb as <-.
  unfold AdriSD.__call__ in Hp. cbn in Hp.
  apply bind_Ok_inv in Hp as (fp & Hfp & Hp).
  split; [now apply mapM_result_length in Hp|].
  apply getitem_elem_of, list_elem_of_fmap in Hfp as (q & -> & _).
  eapply mapM_result_Forall; [|exact Hp].
  intros x y. apply interp_nonneg.
  apply Forall_fmap, Forall_forall. intros v _. cbn. nra.
Qed.

Lemma AdriSD_filters_nonneg_witness :
  let b := AdriSD.mk 2 None (Some 2%R) (Some [[(1 * 1)%R]]) (Some [Np.int_ 2]) in
  length [(1 * 1)%R] = length [0%R] /\ Forall (fun y => 0 <= y)%R [(1 * 1)%R].
Proof.
  intros b.
  apply (AdriSD_filters_nonneg (E := SmallGrid) 2 2 None b 0 [0%R] [(1 * 1)%R]).
  - reflexivity.
  - unfold AdriSD.__call__, interp. cbn.
    destruct (Rle_dec 0 0); [reflexivity|]. exfalso. lra.
Defined.

(** ** The forward transform and its output container *)

Lemma setitem_frame `{E : Extern} (w w' : multimap.t) (i : Z) (v : ndmap) :
  multimap.setitem w i v = Ok w' ->
  multimap.pre w' = multimap.pre w
  /\ multimap.dtype_ w' = multimap.dtype_ w
  /\ length (multimap.map w') = length (multimap.map w).
Proof.
  unfold multimap.setitem. intros H. apply bind_Ok_inv in H as (old & _ & H).
  destruct (decide _); [|discriminate]. injection H as <-. cbn.
  now rewrite length_insert.
Qed.

Lemma flat_loop_frame `{E : Extern} (self : WaveletTransform.t) (fmap : ndmap)
    (todo : list (Z * geometry)) (w w' : multimap.t) (r : result ()) :
  WaveletTransform.map2wave_flat_loop self fmap todo w = (w', r) ->
  multimap.pre w' = multimap.pre w
  /\ multimap.dtype_ w' = multimap.dtype_ w
  /\ length (multimap.map w') = length (multimap.map w).
Proof.
  revert w. induction todo as [|[i [shp wc]] todo IH]; intros w H.
  - now injection H as <- <-.
  - cbn [WaveletTransform.map2wave_flat_loop] in H.
    destruct (WaveletTransform.flat_coefficient self fmap i shp ≫= _)
      as [w1|e1] eqn:Hstep.
    + apply IH in H as (-> & -> & ->).
      apply bind_Ok_inv in Hstep as (c & _ & Hstep).
      now apply setitem_frame in Hstep.
    + now injection H as <- <-.
Qed.

Lemma curved_loop_frame `{E : Extern} (self : WaveletTransform.t)
    (ainfo : alm_info) (a : alm)
    (todo : list (Z * geometry)) (w w' : multimap.t) (r : result ()) :
  WaveletTransform.map2wave_curved_loop self ainfo a todo w = (w', r) ->
  multimap.pre w' = multimap.pre w
  /\ multimap.dtype_ w' = multimap.dtype_ w
  /\ length (multimap.map w') = length (multimap.map w).
Proof.
  revert w. induction todo as [|[i g] todo IH]; intros w H.
  - now injection H as <- <-.
  - cbn [WaveletTransform.map2wave_curved_loop] in H.
    destruct (basis_lmaxs (WaveletTransform.basis_ self) ≫= _)
      as [[written r1]|e1].
    + destruct r1 as [[]|e2].
      * apply IH in H as (-> & -> & ->). cbn. now rewrite length_insert.
      * injection H as <- <-. cbn. now rewrite length_insert.
    + now injection H as <- <-.
Qed.

(** X14: [map2wave] with a caller-supplied container works in place: whatever
    the outcome, the caller's container keeps its batch shape, its dtype and
    its number of scales, and a successful call returns that container. *)
Theorem map2wave_in_place `{E : Extern}
    (self : WaveletTransform.t) (m : ndmap) (w : multimap.t)
    (st : option multimap.t) (r : result multimap.t) :
  WaveletTransform.map2wave self m (Some w) = (st, r) ->
  exists w',
    st = Some w'
    /\ multimap.pre w' = multimap.pre w
    /\ multimap.dtype_ w' = multimap.dtype_ w
    /\ length (multimap.map w') = length (multimap.map w)
    /\ (forall x, r = Ok x -> x = w').
Proof.
  unfold WaveletTransform.map2wave.
  destruct (String.eqb (UHT.mode (WaveletTransform.uht self)) "flat").
  - destruct (WaveletTransform.map2wave_flat_loop _ _ _ _) as [w' r'] eqn:Hloop.
    intros [= <- <-]. exists w'. split; [reflexivity|].
    apply flat_loop_frame in Hloop as (-> & -> & ->).
    repeat split. intros x. destruct r' as [[]|]; cbn; congruence.
  - destruct (Py.num _) as [lmax|e].
    + destruct (WaveletTransform.map2wave_curved_loop _ _ _ _ _) as [w' r'] eqn:Hloop.
      intros [= <- <-]. exists w'. split; [reflexivity|].
      apply curved_loop_frame in Hloop as (-> & -> & ->).
      repeat split. intros x. destruct r' as [[]|]; cbn; congruence.
    + intros [= <- <-]. exists w. repeat split. cbn. discriminate.
Qed.

Lemma map2wave_in_place_witness :
  let self :=
    WaveletTransform.mk flat_pixel (BW butterworth_1_5)
      [([1; 1], 1%R); ([1; 1], 1%R)] [[1%R]; [0%R]] in
  let w : multimap.t :=
    multimap.mk [([1; 1], [1%R]); ([1; 1], [1%R])] [] false in
  exists w',
    Some (multimap.mk [([1; 1], [(0 / 1 * 1)%R]); ([1; 1], [(0 / 1 * 0)%R])] [] false)
    = Some w'
    /\ multimap.pre w' = multimap.pre w
    /\ multimap.dtype_ w' = multimap.dtype_ w
    /\ length (multimap.map w') = length (multimap.map w)
    /\ (forall x,
          Ok (multimap.mk [([1; 1], [(0 / 1 * 1)%R]); ([1; 1], [(0 / 1 * 0)%R])]
                          [] false) = Ok x -> x = w').
Proof.
  intros self w.
  apply (map2wave_in_place (E := SmallGrid) self ([1; 1], [0%R]) w).
  reflexivity.
Defined.
